(** * RAFT workshop notebooks: fine-tuning driver and evaluation pipeline

    A shallow embedding of the Python code of the two notebooks, the
    fine-tuning notebook ([2_raft_finetuning.ipynb]) and the model
    evaluation notebook, with the properties of that code which the
    specification states.

    How Python values are modelled:
    - [str] is a sequence of characters, [list ascii] (the string
      operations are defined and proved for any type of characters);
      [None] is the [None] of an [option];
    - [int] is [Z], [float] is an IEEE 754 binary64 number ([spec_float]
      with 53 bits of precision);
    - a [dict] is the list of its items in insertion order;
    - a pandas column is the list of its cells and a data frame the list
      of its rows, so [Series.apply f] is [map f];
    - a remote service is a script that gives the outcome of its n-th
      call; what the notebook prints and how long it sleeps is recorded
      in a trace. *)

From Stdlib Require Import Ascii String.
From Stdlib Require QArith.
From Stdlib Require Import List ZArith Lia Bool Arith Wf_nat Permutation.
From Stdlib Require Import Floats.SpecFloat.
From Equations Require Import Equations.
Import ListNotations.

(** * Part I: the code *)

(** ** Python sequences: [startswith], [find], [split], [join] *)

Module PySeq.

(** Keeps the equation [x = v] in scope when a definition matches on a
    computed value [x]. *)
Definition inspect {X : Type} (x : X) : {y : X | x = y} := exist _ x eq_refl.

Section Seq.

Context {A : Type}.
Variable eqb : A -> A -> bool.
Hypothesis eqb_spec : forall x y, reflect (x = y) (eqb x y).

(** [s.startswith(p)] *)
Fixpoint startswith (s p : list A) {struct p} : bool :=
  match p with
  | [] => true
  | b :: p' =>
      match s with
      | [] => false
      | a :: s' => eqb a b && startswith s' p'
      end
  end.

(** [sep] occurs in [s] at index [i]: [s.startswith(sep, i)]. *)
Definition occurs_at (sep s : list A) (i : nat) : bool :=
  startswith (skipn i s) sep.

(** [s.find(sep)]: the lowest index at which [sep] occurs, [None] for
    Python's [-1]. *)
Fixpoint find (sep s : list A) : option nat :=
  if startswith s sep then Some 0
  else match s with
       | [] => None
       | _ :: s' => option_map S (find sep s')
       end.

(** [sep.join(parts)] *)
Fixpoint join (sep : list A) (parts : list (list A)) : list A :=
  match parts with
  | [] => []
  | [p] => p
  | p :: rest => p ++ sep ++ join sep rest
  end.

(** [parts[-1]], on a list that is not empty (what [split] returns never
    is). *)
Definition last_item (parts : list (list A)) : list A := last parts [].

(** [parts[:-1]] *)
Definition all_but_last (parts : list (list A)) : list (list A) :=
  removelast parts.

(** [s == t] *)
Fixpoint seq_eqb (s t : list A) : bool :=
  match s, t with
  | [], [] => true
  | a :: s', b :: t' => eqb a b && seq_eqb s' t'
  | _, _ => false
  end.

(** What the termination of [split] rests on: an occurrence found by
    [find] lies inside the string. *)
Lemma startswith_inv s p :
  startswith s p = true -> s = p ++ skipn (length p) s.
Proof.
  revert s; induction p as [|b p IH]; intros s H; simpl in *.
  - reflexivity.
  - destruct s as [|a s]; [discriminate|].
    apply andb_prop in H as [Hab Hs].
    destruct (eqb_spec a b); [subst|discriminate].
    simpl. f_equal. apply IH, Hs.
Qed.

(** [find] returns the lowest index of an occurrence. *)
Lemma find_Some sep s i :
  find sep s = Some i ->
  occurs_at sep s i = true /\ forall j, j < i -> occurs_at sep s j = false.
Proof.
  revert i; induction s as [|a s IH]; intros i H.
  - simpl in H. destruct (startswith [] sep) eqn:E; [|discriminate].
    injection H as <-. split; [exact E | intros; lia].
  - simpl in H. destruct (startswith (a :: s) sep) eqn:E.
    + injection H as <-. split; [exact E | intros; lia].
    + destruct (find sep s) as [k|] eqn:F; [|discriminate].
      injection H as <-. destruct (IH k eq_refl) as [Hk Hlt].
      split; [exact Hk|].
      intros [|j] Hj; [exact E|].
      change (occurs_at sep s j = false). apply Hlt. lia.
Qed.

Lemma find_bound sep s i :
  sep <> [] -> find sep s = Some i -> i + length sep <= length s.
Proof.
  intros Hsep H. apply find_Some in H as [H _].
  unfold occurs_at in H. apply startswith_inv in H.
  assert (L : length (skipn i s) = length s - i) by apply length_skipn.
  rewrite H in L. rewrite length_app in L.
  destruct sep; [congruence|]. simpl in *. lia.
Qed.

(** *** [split] *)

Variable sep : list A.
Hypothesis sep_nonempty : sep <> [].

Lemma sep_length_pos : 0 < length sep.
Proof. destruct sep; [congruence | simpl; lia]. Qed.

(** [s.split(sep)] for a separator that is not empty (Python raises
    [ValueError] on an empty one): cut at the first occurrence, go on
    after it. *)
Equations? split (s : list A) : list (list A) by wf (length s) lt :=
  split s with inspect (find sep s) := {
    | exist _ (Some i) _ => firstn i s :: split (skipn (i + length sep) s)
    | exist _ None _ => [s] }.
Proof.
  pose proof (find_bound sep s i sep_nonempty e) as B.
  pose proof sep_length_pos. rewrite length_skipn. lia.
Qed.

(** Two occurrences of [sep] never share a character. *)
Definition border_free : Prop :=
  forall s i j,
    occurs_at sep s i = true -> occurs_at sep s j = true ->
    i < j -> i + length sep <= j.

End Seq.

Arguments split {A eqb} eqb_spec {sep} sep_nonempty s.

End PySeq.

(** ** Strings, exceptions and calls that may raise *)

Abbreviation str := (list ascii).

(** A string literal. *)
Definition py (s : string) : str := list_ascii_of_string s.

Arguments py s : simpl never.

Definition str_eqb : str -> str -> bool := PySeq.seq_eqb Ascii.eqb.

(** [s.split(sep)] and [sep.join(parts)] on [str]. *)
Definition str_split (sep : str) (sep_nonempty : sep <> []) (s : str)
  : list str :=
  PySeq.split Ascii.eqb_spec sep_nonempty s.

Definition str_join (sep : str) (parts : list str) : str :=
  PySeq.join sep parts.

(** The exceptions of the model: what a remote client raises, the
    [IndexError] of indexing a list too short, the two arithmetic errors
    of [float], the [AttributeError] of calling [split] on a value that
    is not a string, the [TypeError] of iterating over [None], and the
    [ValueError] a tokenizer raises on text it does not accept. All are
    instances of Python's [Exception]. *)
Inductive Exception : Type :=
| RemoteError (description : str)
| IndexError (description : str)
| OverflowError (description : str)
| ZeroDivisionError (description : str)
| AttributeError (description : str)
| TypeError (description : str)
| ValueError (description : str).

(** [str(e)] *)
Definition exception_text (e : Exception) : str :=
  match e with
  | RemoteError d => d
  | IndexError d => d
  | OverflowError d => d
  | ZeroDivisionError d => d
  | AttributeError d => d
  | TypeError d => d
  | ValueError d => d
  end.

(** What evaluating an expression does: it returns a value or raises. *)
Inductive Outcome (R : Type) : Type :=
| Returns (r : R)
| Raises (e : Exception).

Arguments Returns {R} r.
Arguments Raises {R} e.

Definition bind {X Y : Type} (o : Outcome X) (k : X -> Outcome Y)
  : Outcome Y :=
  match o with
  | Returns x => k x
  | Raises e => Raises e
  end.

Notation "x <- o ;; k" := (bind o (fun x => k))
  (at level 61, o at next level, right associativity).

(** [l[0]] *)
Definition index0 {X : Type} (l : list X) : Outcome X :=
  match l with
  | x :: _ => Returns x
  | [] => Raises (IndexError (py "list index out of range"))
  end.

(** ** Python floats *)

Module PyFloat.

(** A [float] is an IEEE 754 binary64 number: 53 bits of precision,
    exponents below 1024, results rounded to nearest, ties to even. *)
Abbreviation float := spec_float.

Definition prec : Z := 53.
Definition emax : Z := 1024.

(** The float nearest to an integer; an infinity when the integer is
    beyond the largest float. *)
Definition round_int (n : Z) : float := binary_normalize prec emax n 0 false.

(** [float(n)], the conversion of an [int] operand of a [float]
    operation. *)
Definition of_int (n : Z) : Outcome float :=
  match round_int n with
  | S754_infinity _ =>
      Raises (OverflowError (py "int too large to convert to float"))
  | x => Returns x
  end.

(** [x * y] and [x / y] on floats. *)
Definition mul (x y : float) : float := SFmul prec emax x y.

Definition truediv (x y : float) : Outcome float :=
  match y with
  | S754_zero _ => Raises (ZeroDivisionError (py "float division by zero"))
  | _ => Returns (SFdiv prec emax x y)
  end.

(** [n * x], [x * n] and [x / n] for an [int] [n] and a [float] [x]. *)
Definition int_mul_float (n : Z) (x : float) : Outcome float :=
  y <- of_int n ;; Returns (mul y x).

Definition float_mul_int (x : float) (n : Z) : Outcome float :=
  y <- of_int n ;; Returns (mul x y).

Definition float_truediv_int (x : float) (n : Z) : Outcome float :=
  y <- of_int n ;; truediv x y.

(** [x == y] *)
Definition eqb (x y : float) : bool := SFeqb x y.

(** A float that is a number, and normal with an exponent of at least
    [lo] when it is finite and not zero. *)
Definition normal_from (lo : Z) (x : float) : Prop :=
  match x with
  | S754_finite _ m e => (Z.pos (digits2_pos m) = 53 /\ lo <= e)%Z
  | S754_nan => False
  | _ => True
  end.

End PyFloat.

(** ** The evaluation notebook *)

Module Evaluation.

(** The marker of the final answer, and the line separator. *)
Definition ANSWER_MARKER : str := py "<ANSWER>: ".
Definition NEWLINE : str := ["010"%char].

Lemma ANSWER_MARKER_nonempty : ANSWER_MARKER <> [].
Proof. discriminate. Qed.

Lemma NEWLINE_nonempty : NEWLINE <> [].
Proof. discriminate. Qed.

(** [[
def extract_final_answer(cot_answer: str) -> str:
    if cot_answer:
        return cot_answer.split("<ANSWER>: ")[-1]
    return None
]]
    [None] and the empty string are the two falsy arguments. *)
Definition extract_final_answer (cot_answer : option str) : option str :=
  match cot_answer with
  | None => None
  | Some [] => None
  | Some s => Some (PySeq.last_item
                (str_split ANSWER_MARKER ANSWER_MARKER_nonempty s))
  end.

(** [[
def extract_context(instruction: str) -> str:
    return "\n".join(instruction.split("\n")[:-1])
]] *)
Definition extract_context (instruction : str) : str :=
  str_join NEWLINE
    (PySeq.all_but_last (str_split NEWLINE NEWLINE_nonempty instruction)).

(** *** Inference *)

(** The part of a chat completion the notebook reads:
    [response.choices[0].message.content]. *)
Record ChatMessage : Type := { content : option str }.
Record Choice : Type := { message : ChatMessage }.
Record ChatCompletion : Type := { choices : list Choice }.

(** The arguments of [client.chat.completions.create]. The temperature
    is only passed on, so it is kept as the fraction it is written as. *)
Record Request : Type := {
  messages : list (list (str * str));
  model : str;
  temperature : QArith_base.Q
}.

(** A client: the outcome of its n-th call, which may depend on the
    request. *)
Definition Client : Type := nat -> Request -> Outcome ChatCompletion.

(** [[
def get_model_completions(client, prompt, deployment):
    messages = [{'role':'user','content':prompt}]
    try:
        response = client.chat.completions.create(
            messages=messages, model=deployment, temperature=0.3)
        return response.choices[0].message.content
    except Exception as e:
        print(e)
        return None
]]
    [calls] is the number of calls the client has served so far. The
    result is the returned value with the lines printed. *)
Definition get_model_completions (client : Client) (calls : nat)
  (prompt deployment : str) : option str * list str :=
  let messages := [[(py "role", py "user"); (py "content", prompt)]] in
  let body :=
    response <- client calls {| messages := messages;
                                model := deployment;
                                temperature := QArith_base.Qmake 3 10 |} ;;
    choice <- index0 (choices response) ;;
    Returns (content (message choice)) in
  match body with
  | Returns r => (r, [])
  | Raises e => (None, [exception_text e])
  end.

(** The request [get_model_completions] sends. *)
Definition request_of (prompt deployment : str) : Request :=
  {| messages := [[(py "role", py "user"); (py "content", prompt)]];
     model := deployment;
     temperature := QArith_base.Qmake 3 10 |}.

(** A row of the test set as it is loaded. *)
Record TestRow : Type := {
  instruction : str;
  cot_answer : option str;
  question : str
}.

(** [test_df.progress_apply(lambda x: get_model_completions(client,
    x.instruction, deployment), axis=1)]: one call per row, in order. *)
Fixpoint model_responses (client : Client) (deployment : str) (calls : nat)
  (test_df : list TestRow) : list (option str) * list str :=
  match test_df with
  | [] => ([], [])
  | x :: rest =>
      let (r, out) :=
        get_model_completions client calls (instruction x) deployment in
      let (rs, outs) := model_responses client deployment (S calls) rest in
      (r :: rs, out ++ outs)
  end.

(** A row of [test_df] once the responses and the cleaned columns are
    added. *)
Record CleanRow : Type := {
  source : TestRow;
  baseline_model_response : option str;
  finetuned_model_response : option str;
  gold_final_answer : option str;
  context : str;
  baseline_final_answer : option str;
  finetuned_final_answer : option str
}.

(** [[
test_df['gold_final_answer'] = test_df.cot_answer.apply(extract_final_answer)
test_df['context'] = test_df.instruction.apply(extract_context)
test_df['baseline_final_answer'] = test_df.baseline_model_response.apply(extract_final_answer)
test_df['finetuned_final_answer'] = test_df.finetuned_model_response.apply(extract_final_answer)
]]
    for one row, on columns that hand a missing value to the function as
    [None]; [clean] below is the cell on any columns. *)
Definition clean_row (x : TestRow) (baseline finetuned : option str)
  : CleanRow :=
  {| source := x;
     baseline_model_response := baseline;
     finetuned_model_response := finetuned;
     gold_final_answer := extract_final_answer (cot_answer x);
     context := extract_context (instruction x);
     baseline_final_answer := extract_final_answer baseline;
     finetuned_final_answer := extract_final_answer finetuned |}.

Fixpoint clean_rows (test_df : list TestRow)
  (baseline finetuned : list (option str)) : list CleanRow :=
  match test_df, baseline, finetuned with
  | x :: xs, b :: bs, f :: fs => clean_row x b f :: clean_rows xs bs fs
  | _, _, _ => []
  end.

(** Cells 2 and 3 of the notebook: both models answer every row, then
    the columns are cleaned. Each client starts with no call served.
    This is the run on columns that hand a missing value to the function
    as [None]; [infer_and_clean] below is the run on any columns. *)
Definition run_inference (baseline_client finetuned_client : Client)
  (baseline_deployment finetuned_deployment : str)
  (test_df : list TestRow) : list CleanRow * list str :=
  let (baseline, out1) :=
    model_responses baseline_client baseline_deployment 0 test_df in
  let (finetuned, out2) :=
    model_responses finetuned_client finetuned_deployment 0 test_df in
  (clean_rows test_df baseline finetuned, out1 ++ out2).

(** *** The columns of the DataFrame *)

(** What [Series.apply] hands to the function for a cell of a column of
    strings: the string, or for a missing value [None] or the float
    [nan]. *)
Inductive Cell : Type :=
| Text (s : str)
| NoneCell
| NaN.

(** pandas is not part of the repository. How a column holds a missing
    string is taken as a parameter: an object column keeps [None] (what
    pandas 2 makes of the responses), a [str] column holds [nan] (what
    pandas 3 makes of them). *)
Inductive Missing : Type :=
| AsNone
| AsNaN.

Definition cell (missing : Missing) (value : option str) : Cell :=
  match value, missing with
  | Some s, _ => Text s
  | None, AsNone => NoneCell
  | None, AsNaN => NaN
  end.

(** The three columns the cleaning cell reads. *)
Record Frame : Type := {
  cot_answer_missing : Missing;
  baseline_response_missing : Missing;
  finetuned_response_missing : Missing
}.

Definition object_columns : Frame :=
  {| cot_answer_missing := AsNone;
     baseline_response_missing := AsNone;
     finetuned_response_missing := AsNone |}.

Definition str_columns : Frame :=
  {| cot_answer_missing := AsNaN;
     baseline_response_missing := AsNaN;
     finetuned_response_missing := AsNaN |}.

(** A column holds a [nan] when it holds missing values as [nan] and one
    of its values is missing. *)
Definition is_missing (value : option str) : bool :=
  match value with
  | None => true
  | Some _ => false
  end.

Definition holds_nan (missing : Missing) (column : list (option str))
  : bool :=
  match missing with
  | AsNone => false
  | AsNaN => existsb is_missing column
  end.

(** [extract_final_answer] on the value of a cell. [nan] is truthy and
    has no [split]. *)
Definition extract_final_answer_cell (c : Cell) : Outcome (option str) :=
  match c with
  | Text s => Returns (extract_final_answer (Some s))
  | NoneCell => Returns (extract_final_answer None)
  | NaN =>
      Raises (AttributeError (py "'float' object has no attribute 'split'"))
  end.

(** [column.apply(f)]: the cells in order; the first call that raises
    ends it. *)
Fixpoint series_apply {X Y : Type} (f : X -> Outcome Y) (column : list X)
  : Outcome (list Y) :=
  match column with
  | [] => Returns []
  | x :: rest =>
      y <- f x ;;
      ys <- series_apply f rest ;;
      Returns (y :: ys)
  end.

(** The rows of [test_df] with the new columns. *)
Fixpoint with_columns (test_df : list TestRow)
  (baseline finetuned gold baseline_final finetuned_final
     : list (option str)) : list CleanRow :=
  match test_df, baseline, finetuned, gold, baseline_final, finetuned_final
  with
  | x :: xs, b :: bs, f :: fs, g :: gs, bf :: bfs, ff :: ffs =>
      {| source := x;
         baseline_model_response := b;
         finetuned_model_response := f;
         gold_final_answer := g;
         context := extract_context (instruction x);
         baseline_final_answer := bf;
         finetuned_final_answer := ff |}
        :: with_columns xs bs fs gs bfs ffs
  | _, _, _, _, _, _ => []
  end.

(** The cleaning cell on the columns of [frame], [baseline] and
    [finetuned] being the two columns of responses:
    [[
test_df['gold_final_answer'] = test_df.cot_answer.apply(extract_final_answer)
test_df['context'] = test_df.instruction.apply(extract_context)
test_df['baseline_final_answer'] = test_df.baseline_model_response.apply(extract_final_answer)
test_df['finetuned_final_answer'] = test_df.finetuned_model_response.apply(extract_final_answer)
]] *)
Definition clean (frame : Frame) (test_df : list TestRow)
  (baseline finetuned : list (option str)) : Outcome (list CleanRow) :=
  gold <-
    series_apply extract_final_answer_cell
      (map (fun x => cell (cot_answer_missing frame) (cot_answer x))
         test_df) ;;
  baseline_final <-
    series_apply extract_final_answer_cell
      (map (cell (baseline_response_missing frame)) baseline) ;;
  finetuned_final <-
    series_apply extract_final_answer_cell
      (map (cell (finetuned_response_missing frame)) finetuned) ;;
  Returns
    (with_columns test_df baseline finetuned gold baseline_final
       finetuned_final).

(** Cells 2 and 3 of the notebook on the columns of [frame]: both
    models answer every row, then the cleaning cell runs. The result is
    what the cleaning cell gives, with the lines printed. *)
Definition infer_and_clean (frame : Frame)
  (baseline_client finetuned_client : Client)
  (baseline_deployment finetuned_deployment : str)
  (test_df : list TestRow) : Outcome (list CleanRow) * list str :=
  let (baseline, out1) :=
    model_responses baseline_client baseline_deployment 0 test_df in
  let (finetuned, out2) :=
    model_responses finetuned_client finetuned_deployment 0 test_df in
  (clean frame test_df baseline finetuned, out1 ++ out2).

(** *** The per-model evaluation tables *)

(** A row of the table handed to the evaluation library. *)
Record EvalRow : Type := {
  answer : option str;
  contexts : list str;
  ground_truth : option str;
  eval_question : str
}.

(** [lambda x: [x] if x else []] *)
Definition wrap_context (x : str) : list str :=
  match x with
  | [] => []
  | _ => [x]
  end.

(** [[
baseline_df = test_df[['baseline_final_answer', 'context',
                       'gold_final_answer', 'question']]
baseline_df.rename(columns={'baseline_final_answer':'answer',
                            'gold_final_answer':'ground_truth',
                            'context':'contexts'}, inplace=True)
baseline_df['contexts'] = baseline_df['contexts'].apply(lambda x: [x] if x else [])
]] *)
Definition baseline_df (test_df : list CleanRow) : list EvalRow :=
  map (fun r => {| answer := baseline_final_answer r;
                   contexts := wrap_context (context r);
                   ground_truth := gold_final_answer r;
                   eval_question := question (source r) |}) test_df.

(** The same for the fine-tuned model. *)
Definition finetuned_df (test_df : list CleanRow) : list EvalRow :=
  map (fun r => {| answer := finetuned_final_answer r;
                   contexts := wrap_context (context r);
                   ground_truth := gold_final_answer r;
                   eval_question := question (source r) |}) test_df.

(** A client that answers every request with the same text. *)
Definition constant_client (text : str) : Client :=
  fun _ _ =>
    Returns {| choices := [{| message := {| content := Some text |} |}] |}.

(** A client whose second call fails and whose other calls answer with
    a marked final answer. *)
Definition flaky_client : Client :=
  fun n request =>
    match n with
    | 1 => Raises (RemoteError (py "Request timed out."))
    | _ => constant_client (py "It is so. <ANSWER>: yes") n request
    end.

(** A test set of three rows. *)
Definition three_rows : list TestRow :=
  map (fun q => {| instruction := py "doc" ++ ["010"%char] ++ q;
                   cot_answer := Some (py "<ANSWER>: yes");
                   question := q |})
    [py "Q1?"; py "Q2?"; py "Q3?"].

(** A test set of one row whose instruction is a single line, and the
    table the notebook makes of it when the baseline model answers
    ["42"] and the fine-tuned model ["<ANSWER>: 42"]. *)
Definition single_line_row : TestRow :=
  {| instruction := py "What is X?";
     cot_answer := Some (py "reasoning <ANSWER>: 42");
     question := py "What is X?" |}.

Definition single_line_table : list CleanRow :=
  fst (run_inference (constant_client (py "42"))
         (constant_client (py "<ANSWER>: 42"))
         (py "gpt-4o-mini") (py "gpt-4o-mini-ft-raft-banking")
         [single_line_row]).

(** The exception [get_model_completions] catches at a call, if any: the
    one the client raises, or the [IndexError] of [choices[0]] on a
    completion without choices. *)
Definition caught (client : Client) (calls : nat) (prompt deployment : str)
  : option Exception :=
  match client calls (request_of prompt deployment) with
  | Raises e => Some e
  | Returns response =>
      match choices response with
      | [] => Some (IndexError (py "list index out of range"))
      | _ :: _ => None
      end
  end.

(** The rows of a pass over the test set, each with the number of calls
    the client has served when its turn comes. *)
Definition numbered (calls : nat) (test_df : list TestRow)
  : list (nat * TestRow) :=
  combine (seq calls (length test_df)) test_df.

(** The lines of the exceptions caught in a pass, in the order of the
    rows. *)
Definition failure_lines (client : Client) (deployment : str)
  (rows : list (nat * TestRow)) : list str :=
  flat_map
    (fun row =>
       match caught client (fst row) (instruction (snd row)) deployment with
       | Some e => [exception_text e]
       | None => []
       end)
    rows.

(** A client that answers every request with a completion that has no
    choices. *)
Definition choiceless_client : Client :=
  fun _ _ => Returns {| choices := [] |}.

End Evaluation.

(** ** The fine-tuning notebook *)

Module FineTuning.

(** *** Counting the tokens of the training file *)

Section Tokens.

(** [encoding.encode] of the tokenizer library, for the encoding of the
    model. *)
Context {Token : Type}.
Variable encode : str -> list Token.

(** A message of a conversation: the items of its [dict]. *)
Definition Message : Type := list (str * str).

(** The body of the loop over [message.items()]. *)
Definition count_item (tokens_per_name : Z) (num_tokens : Z)
  (item : str * str) : Z :=
  let (key, value) := item in
  let num_tokens := (num_tokens + Z.of_nat (length (encode value)))%Z in
  if str_eqb key (py "role") then (num_tokens + tokens_per_name)%Z
  else num_tokens.

(** The body of the loop over [messages]. *)
Definition count_message (tokens_per_message tokens_per_name : Z)
  (num_tokens : Z) (message : Message) : Z :=
  fold_left (count_item tokens_per_name) message
    (num_tokens + tokens_per_message)%Z.

(** [[
def num_tokens_from_messages(messages, tokens_per_message=3, tokens_per_name=1):
    num_tokens = 0
    for message in messages:
        num_tokens += tokens_per_message
        for key, value in message.items():
            num_tokens += len(encoding.encode(value))
            if key == "role":
                num_tokens += tokens_per_name
    num_tokens += 3
    return num_tokens
]] *)
Definition num_tokens_from_messages (messages : list Message)
  (tokens_per_message tokens_per_name : Z) : Z :=
  let num_tokens :=
    fold_left (count_message tokens_per_message tokens_per_name) messages 0%Z in
  (num_tokens + 3)%Z.

(** The call [num_tokens_from_messages(message)] of the notebook, with the
    default values of the two keyword parameters. *)
Definition num_tokens_of_conversation (messages : list Message) : Z :=
  num_tokens_from_messages messages 3 1.

(** [[
num_tokens=0
for message in messages:
    num_tokens += num_tokens_from_messages(message)
]] *)
Definition training_tokens (dataset : list (list Message)) : Z :=
  fold_left
    (fun num_tokens message =>
       (num_tokens + num_tokens_of_conversation message)%Z)
    dataset 0%Z.

(** The tokens of the values of all fields, and the number of fields
    whose key is ["role"]. *)
Definition value_tokens (message : Message) : Z :=
  fold_right (fun item n => (Z.of_nat (length (encode (snd item))) + n)%Z)
    0%Z message.

Definition encoded_tokens (messages : list Message) : Z :=
  fold_right (fun message n => (value_tokens message + n)%Z) 0%Z messages.

Definition role_fields (message : Message) : Z :=
  Z.of_nat (length (filter (fun item => str_eqb (fst item) (py "role"))
                      message)).

Definition role_fields_of (messages : list Message) : Z :=
  fold_right (fun message n => (role_fields message + n)%Z) 0%Z messages.

End Tokens.

(** *** The cost estimate *)

(** The literal [0.003300]: the float nearest to 33/10000,
    [0x1.b089a02752546p-9]. *)
Definition PRICE_PER_1K_TOKENS : PyFloat.float :=
  S754_finite false 7609281930405190 (-61).

(** [training_cost_per_token = 0.003300 / 1000] *)
Definition training_cost_per_token : Outcome PyFloat.float :=
  PyFloat.float_truediv_int PRICE_PER_1K_TOKENS 1000.

(** The price of a token, [0.003300 / 1000], is the float
    [0x1.baeb22f9294c3p-19]. *)
Definition PRICE_PER_TOKEN : PyFloat.float :=
  S754_finite false 7791904696734915 (-71).

(** [total_cost = num_tokens * training_cost_per_token * num_epochs],
    for the token count of the training file and a number of epochs (the
    notebook sets [num_epochs = 3]). *)
Definition total_cost (num_tokens num_epochs : Z) : Outcome PyFloat.float :=
  price <- training_cost_per_token ;;
  tokens_cost <- PyFloat.int_mul_float num_tokens price ;;
  PyFloat.float_mul_int tokens_cost num_epochs.

(** *** Monitoring the fine-tuning job *)

(** The part of a job the notebook reads. *)
Record FineTuningJob : Type := {
  status : str;
  fine_tuned_model : option str
}.

(** [client.fine_tuning.jobs.retrieve(job_id)]: the outcome of the n-th
    retrieval. *)
Definition JobService : Type := nat -> Outcome FineTuningJob.

(** What the monitoring cell does that can be observed. *)
Inductive Event : Type :=
| Retrieve
| Sleep (seconds : Z)
| PrintJob (job : FineTuningJob)
| PrintElapsed
| PrintStatus (s : str)
| ClearOutput
| PrintFinished (s : str).

(** [status in ["succeeded", "failed"]] *)
Definition is_terminal (s : str) : bool :=
  existsb (str_eqb s) [py "succeeded"; py "failed"].

(** Where the cell stands: the loop is left, an exception went through
    it, or it is still polling. *)
Inductive Run : Type :=
| Finished (s : str)
| Aborted (e : Exception)
| Polling.

(** [[
while status not in ["succeeded", "failed"]:
    time.sleep(10)
    response = client.fine_tuning.jobs.retrieve(job_id)
    print(response.model_dump_json(indent=2))
    print("Elapsed time: ...")
    status = response.status
    print(f'Status: {status}')
    clear_output(wait=True)
]]
    run for at most [fuel] iterations, [calls] retrievals having been made
    before. *)
Fixpoint poll_loop (retrieve : JobService) (fuel calls : nat) (s : str)
  : Run * list Event :=
  if is_terminal s then (Finished s, [])
  else
    match fuel with
    | O => (Polling, [])
    | S fuel' =>
        match retrieve calls with
        | Raises e => (Aborted e, [Sleep 10; Retrieve])
        | Returns response =>
            let (run, trace) :=
              poll_loop retrieve fuel' (S calls) (status response) in
            (run,
             [Sleep 10; Retrieve; PrintJob response; PrintElapsed;
              PrintStatus (status response); ClearOutput] ++ trace)
        end
    end.

(** The monitoring cell up to the line that reports the final status:
    [[
response = client.fine_tuning.jobs.retrieve(job_id)
status = response.status
while ...
print(f'Fine-tuning job {job_id} finished with status: {status}')
]] *)
Definition monitor (retrieve : JobService) (fuel : nat) : Run * list Event :=
  match retrieve 0 with
  | Raises e => (Aborted e, [Retrieve])
  | Returns response =>
      let (run, trace) := poll_loop retrieve fuel 1 (status response) in
      (run,
       Retrieve :: trace ++
         match run with
         | Finished s => [PrintFinished s]
         | _ => []
         end)
  end.

(** The seconds slept, in order, and the retrievals and sleeps of a
    trace without what is printed. *)
Definition sleeps (trace : list Event) : list Z :=
  flat_map (fun ev => match ev with Sleep s => [s] | _ => [] end) trace.

Definition calls_and_sleeps (trace : list Event) : list Event :=
  filter (fun ev => match ev with Retrieve | Sleep _ => true | _ => false end)
    trace.

(** The retrievals before the [k]-th all return a job whose status is
    not terminal. *)
Definition nonterminal_before (retrieve : JobService) (k : nat) : Prop :=
  forall j, j < k ->
    exists job, retrieve j = Returns job /\ is_terminal (status job) = false.

(** The same for the [k] retrievals from the [calls]-th on. *)
Definition nonterminal_from (retrieve : JobService) (calls k : nat)
  : Prop :=
  forall j, j < k ->
    exists job,
      retrieve (calls + j) = Returns job /\ is_terminal (status job) = false.

(** One round of the loop: a sleep of 10 seconds, then a retrieval. *)
Definition round : list Event := [Sleep 10; Retrieve].

(** A service whose job is running at the first two retrievals and has
    succeeded at the third. *)
Definition succeeding_service : JobService :=
  fun n =>
    match n with
    | 0 | 1 => Returns {| status := py "running"; fine_tuned_model := None |}
    | _ =>
        Returns {| status := py "succeeded";
                   fine_tuned_model := Some (py "gpt-4o-mini.ft-b044a9d3") |}
    end.

(** A service whose second retrieval fails: the job is running, then the
    connection is lost. *)
Definition failing_service : JobService :=
  fun n =>
    match n with
    | O => Returns {| status := py "running"; fine_tuned_model := None |}
    | _ => Raises (RemoteError (py "Connection error."))
    end.

(** *** The training file with a tokenizer that can raise *)

(** [d.get('messages')] of a line: the conversation, or [None] when the
    object has no such key. *)
Definition Line : Type := option (list Message).

(** A [for] loop whose body can raise: the first exception ends it. *)
Fixpoint for_each {X S : Type} (body : S -> X -> Outcome S) (l : list X)
  (s : S) : Outcome S :=
  match l with
  | [] => Returns s
  | x :: rest => s' <- body s x ;; for_each body rest s'
  end.

Section RaisingTokens.

(** [encoding.encode] as a call that can raise: the tokenizer of the
    notebook raises [ValueError] on text that spells one of its special
    tokens. *)
Context {Token : Type}.
Variable encode : str -> Outcome (list Token).

Definition count_item_or_raise (tokens_per_name : Z) (num_tokens : Z)
  (item : str * str) : Outcome Z :=
  let (key, value) := item in
  tokens <- encode value ;;
  let num_tokens := (num_tokens + Z.of_nat (length tokens))%Z in
  Returns (if str_eqb key (py "role") then (num_tokens + tokens_per_name)%Z
           else num_tokens).

Definition count_message_or_raise (tokens_per_message tokens_per_name : Z)
  (num_tokens : Z) (message : Message) : Outcome Z :=
  for_each (count_item_or_raise tokens_per_name) message
    (num_tokens + tokens_per_message)%Z.

(** [num_tokens_from_messages] on what [d.get('messages')] gives:
    iterating over [None] raises [TypeError]. *)
Definition num_tokens_from_line (messages : Line)
  (tokens_per_message tokens_per_name : Z) : Outcome Z :=
  match messages with
  | None => Raises (TypeError (py "'NoneType' object is not iterable"))
  | Some messages =>
      num_tokens <-
        for_each (count_message_or_raise tokens_per_message tokens_per_name)
          messages 0%Z ;;
      Returns (num_tokens + 3)%Z
  end.

(** The loop over the lines of the training file, [num_tokens] being the
    count so far:
    [[
messages = [ d.get('messages') for d in dataset]
for message in messages:
    num_tokens += num_tokens_from_messages(message)
]] *)
Definition count_lines (lines : list Line) (num_tokens : Z) : Outcome Z :=
  for_each
    (fun num_tokens line =>
       count <- num_tokens_from_line line 3 1 ;;
       Returns (num_tokens + count)%Z)
    lines num_tokens.

End RaisingTokens.

(** *** What the estimate is, as a number *)

(** A float that is [0.0] or a positive normal number. *)
Definition nonnegative_number (x : PyFloat.float) : Prop :=
  match x with
  | S754_zero false => True
  | S754_finite false m _ => Z.pos (digits2_pos m) = 53%Z
  | _ => False
  end.

(** [x > 0] for a float that is a number. *)
Definition positive_number (x : PyFloat.float) : Prop :=
  match x with
  | S754_finite false m _ => Z.pos (digits2_pos m) = 53%Z
  | _ => False
  end.

End FineTuning.

(** ** The deployment of the fine-tuned model *)

Module Deployment.

(** The two separators of the cell. *)
Definition SCHEME : str := py "https://".
Definition DOT : str := py ".".

Lemma SCHEME_nonempty : SCHEME <> [].
Proof. discriminate. Qed.

Lemma DOT_nonempty : DOT <> [].
Proof. discriminate. Qed.

(** [l[i]] for an index that is not negative. *)
Definition index {X : Type} (l : list X) (i : nat) : Outcome X :=
  match nth_error l i with
  | Some x => Returns x
  | None => Raises (IndexError (py "list index out of range"))
  end.

(** [[
resource_name = aoai_endpoint.split("https://")[1].split(".")[0]
]] *)
Definition resource_name (aoai_endpoint : str) : Outcome str :=
  after_scheme <- index (str_split SCHEME SCHEME_nonempty aoai_endpoint) 1 ;;
  index (str_split DOT DOT_nonempty after_scheme) 0.

(** The same expression on what [os.getenv] gives for the endpoint: the
    value of the variable, or [None] when it is not set, which has no
    [split]. *)
Definition resource_name_of_env (aoai_endpoint : option str) : Outcome str :=
  match aoai_endpoint with
  | Some endpoint => resource_name endpoint
  | None =>
      Raises
        (AttributeError (py "'NoneType' object has no attribute 'split'"))
  end.

End Deployment.

(** * Part II: the properties *)

(** ** Facts about [find], [split] and [join] *)

Module PySeqFacts.
Section Facts.

Context {A : Type}.
Variable eqb : A -> A -> bool.
Hypothesis eqb_spec : forall x y, reflect (x = y) (eqb x y).

Local Abbreviation startswith := (PySeq.startswith eqb).
Local Abbreviation occurs_at := (PySeq.occurs_at eqb).
Local Abbreviation find := (PySeq.find eqb).
Local Abbreviation join := PySeq.join.
Local Abbreviation last_item := PySeq.last_item.
Local Abbreviation all_but_last := PySeq.all_but_last.
Local Abbreviation startswith_inv := (PySeq.startswith_inv eqb eqb_spec).
Local Abbreviation find_Some := (PySeq.find_Some eqb).
Local Abbreviation find_bound := (PySeq.find_bound eqb eqb_spec).

Lemma startswith_app s p : startswith (p ++ s) p = true.
Proof.
  induction p as [|b p IH]; simpl; [reflexivity|].
  destruct (eqb_spec b b); [exact IH | congruence].
Qed.

Lemma startswith_nil p : p <> [] -> startswith [] p = false.
Proof. destruct p; [congruence | reflexivity]. Qed.

Lemma occurs_at_0 sep s : occurs_at sep s 0 = startswith s sep.
Proof. reflexivity. Qed.

Lemma occurs_at_S sep a s i :
  occurs_at sep (a :: s) (S i) = occurs_at sep s i.
Proof. reflexivity. Qed.

Lemma occurs_at_skipn sep s k i :
  occurs_at sep (skipn k s) i = occurs_at sep s (k + i).
Proof.
  unfold occurs_at. rewrite skipn_skipn. f_equal. f_equal. lia.
Qed.

Lemma occurs_at_beyond sep s i :
  sep <> [] -> length s <= i -> occurs_at sep s i = false.
Proof.
  intros Hsep Hi. unfold occurs_at.
  rewrite skipn_all2 by exact Hi. apply startswith_nil, Hsep.
Qed.

Lemma find_None sep s :
  find sep s = None -> forall j, j <= length s -> occurs_at sep s j = false.
Proof.
  induction s as [|a s IH]; intros H j Hj.
  - simpl in H, Hj. destruct (startswith [] sep) eqn:E; [discriminate|].
    replace j with 0 by lia. exact E.
  - simpl in H. destruct (startswith (a :: s) sep) eqn:E; [discriminate|].
    destruct (find sep s) eqn:F; [discriminate|].
    destruct j as [|j]; [exact E|].
    rewrite occurs_at_S. apply IH; [reflexivity | simpl in Hj; lia].
Qed.

Lemma find_None_iff sep s :
  find sep s = None <-> forall j, j <= length s -> occurs_at sep s j = false.
Proof.
  split; [apply find_None|].
  induction s as [|a s IH]; intros H.
  - simpl. rewrite <- occurs_at_0. rewrite H by (simpl; lia). reflexivity.
  - simpl. rewrite <- occurs_at_0. rewrite H by (simpl; lia).
    rewrite IH; [reflexivity|].
    intros j Hj. rewrite <- (occurs_at_S sep a). apply H. simpl; lia.
Qed.

Lemma find_split sep s i :
  find sep s = Some i ->
  s = firstn i s ++ sep ++ skipn (i + length sep) s.
Proof.
  intros H. apply find_Some in H as [H _].
  unfold occurs_at in H. apply startswith_inv in H.
  rewrite skipn_skipn in H. rewrite (Nat.add_comm i).
  rewrite <- H. symmetry. apply firstn_skipn.
Qed.

Lemma seq_eqb_eq (s t : list A) : PySeq.seq_eqb eqb s t = true <-> s = t.
Proof.
  revert t; induction s as [|a s IH]; intros [|b t]; simpl;
    try (split; [discriminate | congruence]); [tauto|].
  rewrite andb_true_iff, IH. destruct (eqb_spec a b) as [->|N].
  - split; [intros [_ ->]; reflexivity | intros E; injection E; auto].
  - split; [intros [E _]; discriminate | congruence].
Qed.

(** *** [split] *)

Variable sep : list A.
Hypothesis sep_nonempty : sep <> [].

Local Abbreviation split := (PySeq.split eqb_spec sep_nonempty).
Local Abbreviation border_free := (PySeq.border_free eqb sep).
Local Abbreviation sep_length_pos := (PySeq.sep_length_pos sep sep_nonempty).

Lemma split_found s i :
  find sep s = Some i ->
  split s = firstn i s :: split (skipn (i + length sep) s).
Proof.
  intros H. funelim (split s); [|congruence].
  assert (i0 = i) by congruence. subst. reflexivity.
Qed.

Lemma split_not_found s : find sep s = None -> split s = [s].
Proof. intros H. funelim (split s); [congruence | reflexivity]. Qed.

(** Induction over the cuts [split] makes. *)
Lemma split_ind (P : list A -> Prop) :
  (forall s, find sep s = None -> P s) ->
  (forall s i, find sep s = Some i ->
               P (skipn (i + length sep) s) -> P s) ->
  forall s, P s.
Proof.
  intros Hnone Hsome s.
  induction s as [s IH]
    using (well_founded_induction (well_founded_ltof _ (@length A))).
  destruct (find sep s) as [i|] eqn:F; [|apply Hnone, F].
  apply (Hsome s i F), IH. unfold ltof.
  pose proof (find_bound sep s i sep_nonempty F) as B.
  pose proof sep_length_pos. rewrite length_skipn. lia.
Qed.

Lemma split_not_nil s : split s <> [].
Proof.
  destruct (find sep s) as [i|] eqn:F.
  - rewrite (split_found s i F). discriminate.
  - rewrite (split_not_found s F). discriminate.
Qed.

Lemma last_item_cons (p : list A) parts :
  parts <> [] -> last_item (p :: parts) = last_item parts.
Proof. destruct parts; [congruence | reflexivity]. Qed.

Lemma join_cons (p : list A) parts :
  parts <> [] -> join sep (p :: parts) = p ++ sep ++ join sep parts.
Proof. destruct parts; [congruence | reflexivity]. Qed.

(** Joining the pieces with the separator gives the string back. *)
Lemma join_split s : join sep (split s) = s.
Proof.
  induction s as [s F | s i F IH] using split_ind.
  - rewrite (split_not_found s F). reflexivity.
  - rewrite (split_found s i F), join_cons by apply split_not_nil.
    rewrite IH. symmetry. apply find_split, F.
Qed.

(** The last piece is what follows some prefix of the string. *)
Lemma last_split_suffix s : exists a, s = a ++ last_item (split s).
Proof.
  induction s as [s F | s i F IH] using split_ind.
  - rewrite (split_not_found s F). exists []. reflexivity.
  - rewrite (split_found s i F), last_item_cons by apply split_not_nil.
    destruct IH as [a Ha]. exists (firstn (i + length sep) s ++ a).
    rewrite <- app_assoc, <- Ha. symmetry. apply firstn_skipn.
Qed.

(** The separator does not occur in the last piece. *)
Lemma last_split_no_sep s : find sep (last_item (split s)) = None.
Proof.
  induction s as [s F | s i F IH] using split_ind.
  - rewrite (split_not_found s F). exact F.
  - rewrite (split_found s i F), last_item_cons by apply split_not_nil.
    exact IH.
Qed.

Lemma length_split_found s i :
  find sep s = Some i -> 2 <= length (split s).
Proof.
  intros F. rewrite (split_found s i F). simpl.
  pose proof (split_not_nil (skipn (i + length sep) s)) as N.
  destruct (split (skipn (i + length sep) s)); [congruence | simpl; lia].
Qed.

Lemma join_all_but_last parts :
  2 <= length parts ->
  join sep (all_but_last parts) ++ sep ++ last_item parts = join sep parts.
Proof.
  induction parts as [|p parts IH]; intros L; [simpl in L; lia|].
  destruct parts as [|q parts]; [simpl in L; lia|].
  destruct parts as [|r parts]; [reflexivity|].
  change (all_but_last (p :: q :: r :: parts))
    with (p :: all_but_last (q :: r :: parts)).
  rewrite (join_cons p (q :: r :: parts)) by discriminate.
  rewrite (last_item_cons p (q :: r :: parts)) by discriminate.
  rewrite <- IH by (simpl; lia).
  rewrite join_cons by discriminate.
  rewrite <- !app_assoc. reflexivity.
Qed.

(** *** A separator that cannot overlap itself *)

Lemma skipn_In (l : list A) n x : In x (skipn n l) -> In x l.
Proof.
  intros H. rewrite <- (firstn_skipn n l). apply in_or_app. right. exact H.
Qed.

(** It is enough that the first character is not used again. *)
Lemma head_unique_border_free c r :
  sep = c :: r -> ~ In c r -> border_free.
Proof.
  intros E Hc s i j Hi Hj Hij.
  destruct (Nat.le_gt_cases (i + length sep) j) as [|Hlt]; [assumption|].
  exfalso. apply Hc.
  unfold occurs_at in Hi, Hj.
  apply startswith_inv in Hi. apply startswith_inv in Hj.
  assert (Hs : skipn j s = skipn (j - i) (skipn i s)).
  { rewrite skipn_skipn. f_equal. lia. }
  rewrite Hi in Hs. rewrite Hj in Hs. rewrite skipn_app in Hs.
  subst sep. simpl length in *.
  destruct (j - i) as [|d] eqn:D; [lia|]. simpl in Hs.
  destruct (skipn d r) as [|x tl] eqn:R.
  - assert (L : length (skipn d r) = length r - d) by apply length_skipn.
    rewrite R in L. simpl in L. lia.
  - simpl in Hs. injection Hs as Hx _. subst x.
    apply (skipn_In r d). rewrite R. left. reflexivity.
Qed.

(** With such a separator the last piece is what follows the last
    occurrence. *)
Lemma last_split_after_last s :
  border_free ->
  forall i,
    occurs_at sep s i = true ->
    (forall j, i < j -> occurs_at sep s j = false) ->
    last_item (split s) = skipn (i + length sep) s.
Proof.
  intros BF.
  induction s as [s F | s k F IH] using split_ind; intros i Hi Hlast.
  - exfalso. destruct (Nat.le_gt_cases i (length s)) as [L|L].
    + rewrite (find_None sep s F i L) in Hi. discriminate.
    + rewrite occurs_at_beyond in Hi by (assumption || lia). discriminate.
  - rewrite (split_found s k F), last_item_cons by apply split_not_nil.
    destruct (find_Some sep s k F) as [Hk Hmin].
    destruct (Nat.lt_trichotomy i k) as [L|[E|L]].
    + rewrite (Hmin i L) in Hi. discriminate.
    + subst k. rewrite split_not_found; [reflexivity|].
      apply find_None_iff. intros j _. rewrite occurs_at_skipn.
      apply Hlast. pose proof sep_length_pos. lia.
    + pose proof (BF s k i Hk Hi L) as B.
      rewrite (IH (i - (k + length sep))).
      * rewrite skipn_skipn. f_equal. lia.
      * rewrite occurs_at_skipn. rewrite <- Hi. f_equal. lia.
      * intros j Hj. rewrite occurs_at_skipn. apply Hlast. lia.
Qed.

(** An occurrence at [i] is a way to write [s] around [sep]. *)
Lemma occurs_at_iff s i :
  occurs_at sep s i = true <->
  exists a b, s = a ++ sep ++ b /\ length a = i.
Proof.
  split.
  - intros H0. pose proof (startswith_inv _ _ H0) as H.
    exists (firstn i s), (skipn (length sep) (skipn i s)). split.
    + rewrite <- H. symmetry. apply firstn_skipn.
    + apply firstn_length_le.
      destruct (Nat.le_gt_cases i (length s)) as [L|L]; [exact L|].
      rewrite occurs_at_beyond in H0 by (assumption || lia). discriminate.
  - intros (a & b & -> & <-). unfold PySeq.occurs_at.
    rewrite skipn_app, skipn_all, Nat.sub_diag. simpl.
    apply startswith_app.
Qed.

(** The separator occurs in no piece. *)
Lemma split_pieces_no_sep s :
  Forall (fun p => find sep p = None) (split s).
Proof.
  induction s as [s F | s i F IH] using split_ind.
  - rewrite (split_not_found s F). constructor; [exact F | constructor].
  - rewrite (split_found s i F). constructor; [|exact IH].
    destruct (find_Some sep s i F) as [_ Hmin].
    pose proof (find_bound sep s i sep_nonempty F) as B.
    apply find_None_iff. intros j Hj.
    destruct (occurs_at sep (firstn i s) j) eqn:O; [|reflexivity].
    apply occurs_at_iff in O. destruct O as (a & b & E & L).
    assert (Lf : length (firstn i s) = i) by (apply firstn_length_le; lia).
    rewrite E, !length_app in Lf. pose proof sep_length_pos.
    rewrite <- (Hmin j) by lia. symmetry.
    apply occurs_at_iff. exists a, (b ++ skipn i s). split; [|exact L].
    rewrite <- (firstn_skipn i s) at 1. rewrite E, <- !app_assoc.
    reflexivity.
Qed.

(** *** A separator of one character *)

Lemma find_char_None c l : sep = [c] -> ~ In c l -> find sep l = None.
Proof.
  intros E Hc. rewrite E. clear E. induction l as [|a l IH]; [reflexivity|].
  simpl. destruct (eqb_spec a c) as [->|N].
  - exfalso. apply Hc. left. reflexivity.
  - simpl. fold (find [c] l). rewrite IH; [reflexivity|].
    intros H. apply Hc. right. exact H.
Qed.

Lemma find_char_Some c l rest :
  sep = [c] -> ~ In c l -> find sep (l ++ c :: rest) = Some (length l).
Proof.
  intros E Hc. rewrite E. clear E. induction l as [|a l IH].
  - simpl. destruct (eqb_spec c c); [reflexivity | congruence].
  - simpl. destruct (eqb_spec a c) as [->|N].
    + exfalso. apply Hc. left. reflexivity.
    + simpl. fold (find [c] (l ++ c :: rest)). rewrite IH; [reflexivity|].
      intros H. apply Hc. right. exact H.
Qed.

Lemma find_None_not_In c l : sep = [c] -> find sep l = None -> ~ In c l.
Proof.
  intros E F Hc. apply in_split in Hc as (l1 & l2 & ->).
  assert (O : occurs_at sep (l1 ++ c :: l2) (length l1) = true).
  { apply occurs_at_iff. exists l1, l2. rewrite E. split; reflexivity. }
  rewrite (find_None sep _ F) in O; [discriminate|].
  rewrite length_app. lia.
Qed.

(** Splitting what was joined gives the lines back, when no line holds
    the separating character. *)
Lemma split_join_char c lines :
  sep = [c] -> lines <> [] -> Forall (fun l => ~ In c l) lines ->
  split (join sep lines) = lines.
Proof.
  intros E N H. induction H as [|l lines Hl H IH]; [congruence|].
  destruct lines as [|l2 lines].
  - simpl. apply split_not_found, (find_char_None c l E Hl).
  - rewrite join_cons by discriminate.
    assert (F : find sep (l ++ sep ++ join sep (l2 :: lines))
                = Some (length l)).
    { rewrite E at 2. apply (find_char_Some c l _ E Hl). }
    rewrite (split_found _ _ F). f_equal.
    + rewrite firstn_app, firstn_all, Nat.sub_diag. simpl.
      apply app_nil_r.
    + rewrite skipn_app, skipn_all2 by lia. simpl.
      replace (length l + length sep - length l) with (length sep) by lia.
      rewrite skipn_app, skipn_all, Nat.sub_diag. simpl.
      apply IH. discriminate.
Qed.

End Facts.
End PySeqFacts.

(** ** The evaluation notebook: answers and contexts *)

Module EvaluationSpec.
Import Evaluation.

Local Abbreviation occurs_at := (PySeq.occurs_at Ascii.eqb).
Local Abbreviation find := (PySeq.find Ascii.eqb).

(** The marker starts with a character it does not use again, so two
    occurrences of it cannot overlap. *)
Lemma ANSWER_MARKER_border_free :
  PySeq.border_free Ascii.eqb ANSWER_MARKER.
Proof.
  apply (PySeqFacts.head_unique_border_free Ascii.eqb Ascii.eqb_spec
           ANSWER_MARKER ANSWER_MARKER_nonempty
           "<"%char (py "ANSWER>: ") eq_refl).
  intros H. simpl in H.
  repeat (destruct H as [H|H]; [discriminate|]). exact H.
Qed.

Lemma extract_final_answer_nonempty s :
  s <> [] ->
  extract_final_answer (Some s) =
  Some (PySeq.last_item (str_split ANSWER_MARKER ANSWER_MARKER_nonempty s)).
Proof. destruct s; [congruence | reflexivity]. Qed.

Lemma no_occurrence_find sep s :
  (forall a b, s <> a ++ sep ++ b) -> sep <> [] -> find sep s = None.
Proof.
  intros H N. apply PySeqFacts.find_None_iff. intros j _.
  destruct (occurs_at sep s j) eqn:O; [|reflexivity].
  apply (PySeqFacts.occurs_at_iff Ascii.eqb Ascii.eqb_spec sep N) in O.
  destruct O as (a & b & E & _). exfalso. exact (H a b E).
Qed.

Lemma find_no_occurrence sep s :
  sep <> [] -> find sep s = None -> forall a b, s <> a ++ sep ++ b.
Proof.
  intros N F a b E.
  assert (O : occurs_at sep s (length a) = true).
  { apply (PySeqFacts.occurs_at_iff Ascii.eqb Ascii.eqb_spec sep N).
    exists a, b. split; [exact E | reflexivity]. }
  rewrite (PySeqFacts.find_None Ascii.eqb sep s F) in O; [discriminate|].
  rewrite E, length_app. lia.
Qed.

(** C1. [extract_final_answer] returns what follows the last occurrence
    of the marker ["<ANSWER>: "]: when the input is [a ++ marker ++ b] and
    no occurrence of the marker starts further right, the result is [b]
    (so ["reasoning text <ANSWER>: 42"] gives ["42"]). An input that is
    not empty and holds no occurrence of the marker is returned whole
    (["no marker here"] is). [None] and the empty string give [None]. *)
Theorem extract_final_answer_after_last_marker :
  (forall a b : str,
      (forall a' b', a ++ ANSWER_MARKER ++ b = a' ++ ANSWER_MARKER ++ b' ->
                     length a' <= length a) ->
      extract_final_answer (Some (a ++ ANSWER_MARKER ++ b)) = Some b)
  /\ extract_final_answer (Some (py "reasoning text <ANSWER>: 42"))
     = Some (py "42")
  /\ (forall s : str,
         s <> [] -> (forall a b, s <> a ++ ANSWER_MARKER ++ b) ->
         extract_final_answer (Some s) = Some s)
  /\ extract_final_answer (Some (py "no marker here"))
     = Some (py "no marker here")
  /\ extract_final_answer None = None
  /\ extract_final_answer (Some (py "")) = None.
Proof.
  repeat split; try reflexivity.
  - intros a b Hlast.
    rewrite extract_final_answer_nonempty by (destruct a; discriminate).
    f_equal. unfold str_split.
    rewrite (PySeqFacts.last_split_after_last Ascii.eqb Ascii.eqb_spec
               ANSWER_MARKER ANSWER_MARKER_nonempty _
               ANSWER_MARKER_border_free (length a)).
    + rewrite skipn_app, skipn_all2 by lia.
      replace (length a + length ANSWER_MARKER - length a)
        with (length ANSWER_MARKER) by lia.
      rewrite skipn_app, skipn_all, Nat.sub_diag. reflexivity.
    + apply (PySeqFacts.occurs_at_iff Ascii.eqb Ascii.eqb_spec
               ANSWER_MARKER ANSWER_MARKER_nonempty).
      exists a, b. split; reflexivity.
    + intros j Hj. destruct (occurs_at ANSWER_MARKER _ j) eqn:O; [|reflexivity].
      apply (PySeqFacts.occurs_at_iff Ascii.eqb Ascii.eqb_spec
               ANSWER_MARKER ANSWER_MARKER_nonempty) in O.
      destruct O as (a' & b' & E & L). specialize (Hlast a' b' E). lia.
  - intros s Hs Hno. rewrite extract_final_answer_nonempty by exact Hs.
    f_equal. unfold str_split. rewrite PySeqFacts.split_not_found.
    + reflexivity.
    + apply no_occurrence_find; [exact Hno | exact ANSWER_MARKER_nonempty].
Qed.

(** The first clause of C1 at an input with two occurrences of the
    marker. *)
Lemma extract_final_answer_after_last_marker_witness :
  extract_final_answer
    (Some (py "x <ANSWER>: y" ++ ANSWER_MARKER ++ py "42")) = Some (py "42").
Proof.
  apply (proj1 extract_final_answer_after_last_marker).
  intros a' b' E.
  destruct (Nat.le_gt_cases (length a') (length (py "x <ANSWER>: y")))
    as [L|L]; [exact L|exfalso].
  assert (O : occurs_at ANSWER_MARKER
                (py "x <ANSWER>: y" ++ ANSWER_MARKER ++ py "42")
                (length a') = true).
  { apply (PySeqFacts.occurs_at_iff Ascii.eqb Ascii.eqb_spec
             ANSWER_MARKER ANSWER_MARKER_nonempty).
    exists a', b'. split; [exact E | reflexivity]. }
  assert (B : length a' + length ANSWER_MARKER
              <= length (py "x <ANSWER>: y" ++ ANSWER_MARKER ++ py "42")).
  { rewrite E, !length_app. lia. }
  simpl in L, B. remember (length a') as n eqn:Hn. clear Hn E.
  do 14 (destruct n as [|n]; [lia|]).
  do 3 (destruct n as [|n]; [discriminate O|]). simpl in B. lia.
Defined.

(** C9. For every string [s] that is not empty, [extract_final_answer s]
    is a suffix of [s], and the marker does not occur in it. *)
Theorem extract_final_answer_suffix_without_marker (s : str) :
  s <> [] ->
  exists r,
    extract_final_answer (Some s) = Some r
    /\ (exists a, s = a ++ r)
    /\ (forall a b, r <> a ++ ANSWER_MARKER ++ b).
Proof.
  intros Hs. rewrite extract_final_answer_nonempty by exact Hs.
  eexists. split; [reflexivity|]. unfold str_split. split.
  - apply PySeqFacts.last_split_suffix.
  - apply find_no_occurrence; [exact ANSWER_MARKER_nonempty|].
    apply PySeqFacts.last_split_no_sep.
Qed.

(** C9 at an input with two occurrences of the marker. *)
Lemma extract_final_answer_suffix_without_marker_witness :
  exists r,
    extract_final_answer (Some (py "a <ANSWER>: b <ANSWER>: c")) = Some r
    /\ (exists a, py "a <ANSWER>: b <ANSWER>: c" = a ++ r)
    /\ (forall a b, r <> a ++ ANSWER_MARKER ++ b).
Proof.
  apply (extract_final_answer_suffix_without_marker
           (py "a <ANSWER>: b <ANSWER>: c")).
  discriminate.
Defined.

(** The newline character. *)
Local Abbreviation nl := ("010"%char).

Lemma extract_context_no_newline (s : str) :
  ~ In nl s -> extract_context s = [].
Proof.
  intros H. unfold extract_context, str_split.
  rewrite PySeqFacts.split_not_found; [reflexivity|].
  apply (PySeqFacts.find_char_None Ascii.eqb Ascii.eqb_spec NEWLINE nl s
           eq_refl H).
Qed.

(** C2. [extract_context] returns the lines of its input but the last,
    joined by newlines: on the lines [lines ++ [last_line]] joined by
    newlines, with at least one line before the last, it returns [lines]
    joined by newlines (["doc1\ndoc2\nWhat is X?"] gives ["doc1\ndoc2"]);
    on an input without a newline it returns the empty string. *)
Theorem extract_context_drops_last_line :
  (forall (lines : list str) (last_line : str),
      lines <> [] ->
      Forall (fun l => ~ In nl l) (lines ++ [last_line]) ->
      extract_context (str_join NEWLINE (lines ++ [last_line]))
      = str_join NEWLINE lines)
  /\ (forall s : str,
         In nl s ->
         exists lines last_line,
           lines <> []
           /\ Forall (fun l => ~ In nl l) (lines ++ [last_line])
           /\ s = str_join NEWLINE (lines ++ [last_line]))
  /\ extract_context
       (py "doc1" ++ NEWLINE ++ py "doc2" ++ NEWLINE ++ py "What is X?")
     = py "doc1" ++ NEWLINE ++ py "doc2"
  /\ (forall s : str, ~ In nl s -> extract_context s = py "").
Proof.
  split; [|split; [|split; [reflexivity | apply extract_context_no_newline]]].
  - intros lines last_line N H. unfold extract_context, str_split, str_join.
    rewrite (PySeqFacts.split_join_char Ascii.eqb Ascii.eqb_spec NEWLINE
               NEWLINE_nonempty nl (lines ++ [last_line]) eq_refl).
    + unfold PySeq.all_but_last. rewrite removelast_last. reflexivity.
    + destruct lines; discriminate.
    + exact H.
  - intros s H.
    pose (parts := str_split NEWLINE NEWLINE_nonempty s).
    assert (L : 2 <= length parts).
    { destruct (find NEWLINE s) as [i|] eqn:F.
      - apply (PySeqFacts.length_split_found _ _ _ _ _ i F).
      - exfalso.
        apply (PySeqFacts.find_None_not_In Ascii.eqb Ascii.eqb_spec NEWLINE
                 NEWLINE_nonempty nl s eq_refl F H). }
    assert (N : parts <> []) by (destruct parts; [simpl in L; lia | discriminate]).
    assert (E : removelast parts ++ [last parts []] = parts)
      by (symmetry; apply app_removelast_last, N).
    exists (removelast parts), (last parts []).
    rewrite E. repeat split.
    + destruct parts as [|p [|q parts']]; simpl in L; try lia. discriminate.
    + pose proof (PySeqFacts.split_pieces_no_sep Ascii.eqb Ascii.eqb_spec
                    NEWLINE NEWLINE_nonempty s) as P.
      fold (str_split NEWLINE NEWLINE_nonempty s) in P. fold parts in P.
      revert P. apply Forall_impl. intros l F.
      apply (PySeqFacts.find_None_not_In Ascii.eqb Ascii.eqb_spec NEWLINE
               NEWLINE_nonempty nl l eq_refl F).
    + unfold parts, str_join, str_split. symmetry.
      apply PySeqFacts.join_split.
Qed.

(** The first clause of C2 on three lines. *)
Lemma extract_context_drops_last_line_witness :
  extract_context
    (str_join NEWLINE ([py "doc1"; py "doc2"] ++ [py "What is X?"]))
  = str_join NEWLINE [py "doc1"; py "doc2"].
Proof.
  apply (proj1 extract_context_drops_last_line).
  - discriminate.
  - repeat constructor; intros H; simpl in H;
      repeat (destruct H as [H|H]; [discriminate|]); exact H.
Defined.

(** C10. [extract_context] loses the last line only: when [s] holds a
    newline, [extract_context s], a newline and the last line of [s] (a
    string without a newline) make up [s] again. *)
Theorem extract_context_loses_only_last_line (s : str) :
  In nl s ->
  exists last_line,
    ~ In nl last_line
    /\ last_line = PySeq.last_item (str_split NEWLINE NEWLINE_nonempty s)
    /\ extract_context s ++ NEWLINE ++ last_line = s.
Proof.
  intros H. eexists. split; [|split; [reflexivity|]].
  - apply (PySeqFacts.find_None_not_In Ascii.eqb Ascii.eqb_spec NEWLINE
             NEWLINE_nonempty nl _ eq_refl).
    apply PySeqFacts.last_split_no_sep.
  - unfold extract_context, str_join, str_split.
    destruct (find NEWLINE s) as [i|] eqn:F.
    + rewrite PySeqFacts.join_all_but_last.
      * apply PySeqFacts.join_split.
      * apply (PySeqFacts.length_split_found _ _ _ _ _ i F).
    + exfalso.
      apply (PySeqFacts.find_None_not_In Ascii.eqb Ascii.eqb_spec NEWLINE
               NEWLINE_nonempty nl s eq_refl F H).
Qed.

(** C10 at an input of two lines. *)
Lemma extract_context_loses_only_last_line_witness :
  exists last_line,
    ~ In nl last_line
    /\ last_line
       = PySeq.last_item
           (str_split NEWLINE NEWLINE_nonempty
              (py "doc1" ++ NEWLINE ++ py "What is X?"))
    /\ extract_context (py "doc1" ++ NEWLINE ++ py "What is X?")
         ++ NEWLINE ++ last_line
       = py "doc1" ++ NEWLINE ++ py "What is X?".
Proof.
  apply (extract_context_loses_only_last_line
           (py "doc1" ++ NEWLINE ++ py "What is X?")).
  simpl. tauto.
Defined.

(** *** Inference row by row *)



(** Every row gets its own call, whatever the calls before it did. *)
Lemma model_responses_nth client deployment test_df :
  forall calls,
    length (fst (model_responses client deployment calls test_df))
    = length test_df
    /\ forall i x,
        nth_error test_df i = Some x ->
        nth_error (fst (model_responses client deployment calls test_df)) i
        = Some (fst (get_model_completions client (calls + i)
                       (instruction x) deployment)).
Proof.
  induction test_df as [|y rest IH]; intros calls.
  - split; [reflexivity | intros [|i] x H; discriminate].
  - simpl.
    destruct (get_model_completions client calls (instruction y) deployment)
      as [r out] eqn:G.
    destruct (model_responses client deployment (S calls) rest)
      as [rs outs] eqn:M.
    destruct (IH (S calls)) as [L N]. rewrite M in L, N. simpl in *.
    split; [f_equal; exact L|].
    intros [|i] x H; simpl in *.
    + injection H as <-. rewrite Nat.add_0_r, G. reflexivity.
    + rewrite (N i x H). do 3 f_equal. lia.
Qed.

Lemma clean_rows_nth test_df :
  forall baseline finetuned,
    length baseline = length test_df ->
    length finetuned = length test_df ->
    length (clean_rows test_df baseline finetuned) = length test_df
    /\ forall i x b f,
        nth_error test_df i = Some x ->
        nth_error baseline i = Some b ->
        nth_error finetuned i = Some f ->
        nth_error (clean_rows test_df baseline finetuned) i
        = Some (clean_row x b f).
Proof.
  induction test_df as [|y rest IH]; intros [|b0 bs] [|f0 fs] Lb Lf;
    try discriminate.
  - split; [reflexivity | intros [|i] x b f H; discriminate].
  - simpl in Lb, Lf.
    destruct (IH bs fs) as [L N]; [lia | lia |].
    split; [simpl; f_equal; exact L|].
    intros [|i] x b f Hx Hb Hf; simpl in *.
    + congruence.
    + apply N; assumption.
Qed.

(** *** The cleaning cell on any columns *)

Lemma infer_and_clean_parts frame bc fc bd fd test_df :
  infer_and_clean frame bc fc bd fd test_df
  = (clean frame test_df (fst (model_responses bc bd 0 test_df))
       (fst (model_responses fc fd 0 test_df)),
     snd (model_responses bc bd 0 test_df)
       ++ snd (model_responses fc fd 0 test_df)).
Proof.
  unfold infer_and_clean.
  destruct (model_responses bc bd 0 test_df).
  destruct (model_responses fc fd 0 test_df). reflexivity.
Qed.

(** [apply(extract_final_answer)] on a column: it raises when the column
    holds a [nan], and gives the final answers otherwise. *)
Lemma series_apply_cells missing (column : list (option str)) :
  series_apply extract_final_answer_cell (map (cell missing) column)
  = if holds_nan missing column
    then Raises
           (AttributeError (py "'float' object has no attribute 'split'"))
    else Returns (map extract_final_answer column).
Proof.
  destruct missing; cbn [holds_nan].
  - induction column as [|[v|] rest IH]; [reflexivity| |];
      cbn [map series_apply cell extract_final_answer_cell bind];
      rewrite IH; reflexivity.
  - induction column as [|[v|] rest IH]; [reflexivity| |];
      cbn [map series_apply cell extract_final_answer_cell bind existsb
             is_missing orb]; [|reflexivity].
    rewrite IH. destruct (existsb is_missing rest); reflexivity.
Qed.

Lemma with_columns_clean_rows (test_df : list TestRow) :
  forall baseline finetuned,
    with_columns test_df baseline finetuned
      (map extract_final_answer (map cot_answer test_df))
      (map extract_final_answer baseline)
      (map extract_final_answer finetuned)
    = clean_rows test_df baseline finetuned.
Proof.
  induction test_df as [|x xs IH]; intros [|b bs] [|f fs]; try reflexivity.
  cbn [map with_columns clean_rows]. rewrite IH. reflexivity.
Qed.

(** The cleaning cell raises when one of the three columns holds a
    [nan], and gives the cleaned rows otherwise. *)
Lemma clean_cases frame test_df baseline finetuned :
  clean frame test_df baseline finetuned
  = if holds_nan (cot_answer_missing frame) (map cot_answer test_df)
       || holds_nan (baseline_response_missing frame) baseline
       || holds_nan (finetuned_response_missing frame) finetuned
    then Raises
           (AttributeError (py "'float' object has no attribute 'split'"))
    else Returns (clean_rows test_df baseline finetuned).
Proof.
  unfold clean.
  rewrite <- (map_map cot_answer (cell (cot_answer_missing frame))).
  rewrite !series_apply_cells.
  destruct (holds_nan (cot_answer_missing frame) (map cot_answer test_df));
    [reflexivity|].
  destruct (holds_nan (baseline_response_missing frame) baseline);
    [reflexivity|].
  destruct (holds_nan (finetuned_response_missing frame) finetuned);
    [reflexivity|].
  cbn [bind orb]. rewrite with_columns_clean_rows. reflexivity.
Qed.



(** C4, amended, on three rows and columns that keep [None], the call
    of the baseline model failing for the second row: that row has no
    response and no final answer, the rows around it have both, and the
    failure is printed once. *)
Example inference_with_one_failure :
  let result :=
    infer_and_clean object_columns flaky_client
      (constant_client (py "<ANSWER>: no"))
      (py "gpt-4o-mini") (py "gpt-4o-mini-ft-raft-banking") three_rows in
  exists rows,
    fst result = Returns rows
    /\ map baseline_model_response rows
       = [Some (py "It is so. <ANSWER>: yes"); None;
          Some (py "It is so. <ANSWER>: yes")]
    /\ map baseline_final_answer rows
       = [Some (py "yes"); None; Some (py "yes")]
    /\ map finetuned_final_answer rows
       = [Some (py "no"); Some (py "no"); Some (py "no")]
    /\ snd result = [py "Request timed out."].
Proof. eexists. repeat split. Qed.


(** The run on columns that keep [None] is [run_inference]. *)
Lemma infer_and_clean_object_columns bc fc bd fd test_df :
  infer_and_clean object_columns bc fc bd fd test_df
  = (Returns (fst (run_inference bc fc bd fd test_df)),
     snd (run_inference bc fc bd fd test_df)).
Proof.
  rewrite infer_and_clean_parts, clean_cases. unfold run_inference.
  destruct (model_responses bc bd 0 test_df).
  destruct (model_responses fc fd 0 test_df). reflexivity.
Qed.

(** What is printed does not depend on the columns. *)
Lemma infer_and_clean_prints frame bc fc bd fd test_df :
  snd (infer_and_clean frame bc fc bd fd test_df)
  = snd (run_inference bc fc bd fd test_df).
Proof.
  rewrite infer_and_clean_parts. unfold run_inference.
  destruct (model_responses bc bd 0 test_df).
  destruct (model_responses fc fd 0 test_df). reflexivity.
Qed.

(** *** The tables handed to the evaluation library *)

(** C7 fails as it is stated: the context of the row of
    [single_line_table] is the empty string, and the [contexts] cell of
    that row is the empty list in both tables, not a list with the
    context as its one item. *)
Lemma contexts_not_always_singleton :
  map (fun r => instruction (source r)) single_line_table = [py "What is X?"]
  /\ map context single_line_table = [py ""]
  /\ map contexts (baseline_df single_line_table) = [[]]
  /\ map contexts (finetuned_df single_line_table) = [[]]
  /\ map contexts (baseline_df single_line_table)
     <> map (fun r => [context r]) single_line_table
  /\ map contexts (finetuned_df single_line_table)
     <> map (fun r => [context r]) single_line_table.
Proof. repeat split; discriminate. Qed.

(** C7, amended. In both tables the [contexts] cell of a row is the list
    with the row's context as its one item when that context is not the
    empty string, and the empty list when it is. *)
Theorem contexts_wrap_nonempty_context (test_df : list CleanRow) :
  length (baseline_df test_df) = length test_df
  /\ length (finetuned_df test_df) = length test_df
  /\ forall i r,
      nth_error test_df i = Some r ->
      exists b f,
        nth_error (baseline_df test_df) i = Some b
        /\ nth_error (finetuned_df test_df) i = Some f
        /\ (context r <> py "" ->
            contexts b = [context r] /\ contexts f = [context r])
        /\ (context r = py "" -> contexts b = [] /\ contexts f = []).
Proof.
  unfold baseline_df, finetuned_df. rewrite !length_map.
  split; [reflexivity|]. split; [reflexivity|].
  intros i r H. eexists. eexists.
  rewrite !nth_error_map, H. simpl.
  split; [reflexivity|]. split; [reflexivity|].
  destruct (context r) as [|c s]; split; intros E.
  - exfalso. apply E. reflexivity.
  - split; reflexivity.
  - split; reflexivity.
  - discriminate E.
Qed.

(** The table of the single-line row is the same on any columns: no
    value of that run is missing. *)
Lemma single_line_table_on_any_columns (frame : Frame) :
  fst (infer_and_clean frame (constant_client (py "42"))
         (constant_client (py "<ANSWER>: 42"))
         (py "gpt-4o-mini") (py "gpt-4o-mini-ft-raft-banking")
         [single_line_row])
  = Returns single_line_table.
Proof.
  rewrite infer_and_clean_parts. cbn [fst]. rewrite clean_cases.
  destruct frame as [[|] [|] [|]]; reflexivity.
Qed.

End EvaluationSpec.

(** ** Facts about floats: rounding a product *)

Module PyFloatFacts.
Import PyFloat.
Local Open Scope Z_scope.

Local Abbreviation bra := (binary_round_aux prec emax).

Lemma iter_pos_nat {X : Type} (f : X -> X) (p : positive) :
  forall x, iter_pos f p x = Nat.iter (Pos.to_nat p) f x.
Proof.
  induction p as [p IH|p IH|]; intros x; cbn [iter_pos].
  - rewrite !IH, Pos2Nat.inj_xI, <- Nat.iter_add, <- Nat.iter_succ_r.
    f_equal. lia.
  - rewrite !IH, Pos2Nat.inj_xO, <- Nat.iter_add. f_equal. lia.
  - reflexivity.
Qed.

Lemma shr_1_m mrs : 0 <= shr_m mrs -> shr_m (shr_1 mrs) = shr_m mrs / 2.
Proof.
  destruct mrs as [m r s]. simpl. intros H.
  destruct m as [|[p|p|]|p]; try reflexivity; try lia; simpl shr_m.
  - rewrite Pos2Z.inj_xI. apply Z.div_unique with (r := 1); lia.
  - rewrite Pos2Z.inj_xO. apply Z.div_unique with (r := 0); lia.
Qed.

Lemma shr_iter_m n : forall mrs,
  0 <= shr_m mrs ->
  shr_m (Nat.iter n shr_1 mrs) = shr_m mrs / 2 ^ Z.of_nat n.
Proof.
  induction n as [|n IH]; intros mrs H.
  - simpl. rewrite Z.div_1_r. reflexivity.
  - rewrite Nat.iter_succ_r, IH.
    + rewrite shr_1_m by exact H. rewrite Z.div_div by lia.
      rewrite Nat2Z.inj_succ, Z.pow_succ_r by lia. reflexivity.
    + rewrite shr_1_m by exact H. apply Z.div_pos; lia.
Qed.

Lemma digits2_pos_bounds (m : positive) :
  2 ^ (Z.pos (digits2_pos m) - 1) <= Z.pos m < 2 ^ Z.pos (digits2_pos m).
Proof.
  induction m as [m IH|m IH|]; simpl digits2_pos.
  - rewrite Pos2Z.inj_succ, (Pos2Z.inj_xI m).
    replace (Z.succ (Z.pos (digits2_pos m)) - 1)
      with (Z.succ (Z.pos (digits2_pos m) - 1)) by lia.
    rewrite !Z.pow_succ_r by lia. lia.
  - rewrite Pos2Z.inj_succ, (Pos2Z.inj_xO m).
    replace (Z.succ (Z.pos (digits2_pos m)) - 1)
      with (Z.succ (Z.pos (digits2_pos m) - 1)) by lia.
    rewrite !Z.pow_succ_r by lia. lia.
  - simpl. lia.
Qed.

Lemma digits2_pos_unique (m : positive) (d : Z) :
  2 ^ (d - 1) <= Z.pos m < 2 ^ d -> Z.pos (digits2_pos m) = d.
Proof.
  intros H. pose proof (digits2_pos_bounds m) as B.
  assert (0 < d).
  { destruct (Z.lt_ge_cases 0 d) as [L|L]; [exact L|].
    destruct (Z.eq_dec d 0) as [->|N]; [simpl in H; lia|].
    rewrite (Z.pow_neg_r 2 d) in H by lia. lia. }
  destruct (Z.lt_trichotomy (Z.pos (digits2_pos m)) d) as [L|[E|L]];
    [exfalso | exact E | exfalso].
  - assert (2 ^ Z.pos (digits2_pos m) <= 2 ^ (d - 1))
      by (apply Z.pow_le_mono_r; lia). lia.
  - assert (2 ^ d <= 2 ^ (Z.pos (digits2_pos m) - 1))
      by (apply Z.pow_le_mono_r; lia). lia.
Qed.

(** What [binary_round_aux] computes, step by step. *)
Lemma bra_unfold s mx ex lx :
  bra s mx ex lx =
  let r1 := shr_fexp prec emax mx ex lx in
  let m1 := round_nearest_even (shr_m (fst r1)) (loc_of_shr_record (fst r1)) in
  let r2 := shr_fexp prec emax m1 (snd r1) loc_Exact in
  match shr_m (fst r2) with
  | Z0 => S754_zero s
  | Zpos m =>
      if snd r2 <=? 971 then S754_finite s m (snd r2) else S754_infinity s
  | Zneg _ => S754_nan
  end.
Proof.
  unfold binary_round_aux.
  destruct (shr_fexp prec emax mx ex lx) as [mrs' e'].
  cbn [fst snd].
  destruct (shr_fexp prec emax _ e' loc_Exact) as [mrs'' e''].
  reflexivity.
Qed.

(** The shift of a mantissa of [d] digits, when the result is a normal
    number. *)
Lemma shr_fexp_normal (m : positive) (e : Z) :
  -1074 <= Z.pos (digits2_pos m) + e - 53 ->
  shr_fexp prec emax (Z.pos m) e loc_Exact =
  shr {| shr_m := Z.pos m; shr_r := false; shr_s := false |} e
    (Z.pos (digits2_pos m) - 53).
Proof.
  intros H. unfold shr_fexp, fexp, SpecFloat.emin, prec, emax.
  cbn [Zdigits2 shr_record_of_loc]. f_equal. lia.
Qed.

Lemma round_nearest_even_bounds q l :
  q <= round_nearest_even q l <= q + 1.
Proof.
  destruct l as [|[| |]]; simpl; try lia. destruct (Z.even q); lia.
Qed.

(** Rounding a product of at least 53 digits gives a normal number or an
    infinity, and a larger exponent of the input only moves the exponent
    of the result. *)
Lemma bra_normal (s : bool) (M : positive) (E : Z) :
  53 <= Z.pos (digits2_pos M) -> -1074 <= E ->
  exists m e,
    Z.pos (digits2_pos m) = 53 /\
    E <= e <= E + Z.pos (digits2_pos M) - 52 /\
    forall j, 0 <= j ->
      bra s (Z.pos M) (E + j) loc_Exact =
      if e + j <=? 971 then S754_finite s m (e + j) else S754_infinity s.
Proof.
  intros D HE. set (d := Z.pos (digits2_pos M)) in *.
  assert (K : forall j, 0 <= j ->
            shr_fexp prec emax (Z.pos M) (E + j) loc_Exact =
            shr {| shr_m := Z.pos M; shr_r := false; shr_s := false |}
              (E + j) (d - 53)).
  { intros j Hj. apply shr_fexp_normal. fold d. lia. }
  destruct (Z.eq_dec d 53) as [D53|D53].
  - exists M, E. split; [exact D53|]. split; [lia|]. intros j Hj.
    rewrite bra_unfold, K by exact Hj. rewrite D53.
    change (53 - 53) with 0.
    cbn [shr fst snd shr_m loc_of_shr_record round_nearest_even].
    rewrite shr_fexp_normal by (fold d; lia). fold d. rewrite D53.
    reflexivity.
  - destruct (d - 53) as [|p|p] eqn:Ek; try lia.
    set (mrs := iter_pos shr_1 p
                  {| shr_m := Z.pos M; shr_r := false; shr_s := false |}).
    set (m1 := round_nearest_even (shr_m mrs) (loc_of_shr_record mrs)).
    assert (Q : 2 ^ 52 <= shr_m mrs < 2 ^ 53).
    { unfold mrs. rewrite iter_pos_nat, shr_iter_m by (simpl; lia).
      cbn [shr_m]. rewrite positive_nat_Z.
      pose proof (digits2_pos_bounds M) as B. fold d in B.
      assert (P : 0 < 2 ^ Z.pos p) by (apply Z.pow_pos_nonneg; lia).
      replace (d - 1) with (52 + Z.pos p) in B by lia.
      replace d with (53 + Z.pos p) in B by lia.
      rewrite !Z.pow_add_r in B by lia.
      split.
      - apply Z.div_le_lower_bound; lia.
      - apply Z.div_lt_upper_bound; lia. }
    pose proof (round_nearest_even_bounds (shr_m mrs) (loc_of_shr_record mrs))
      as R. fold m1 in R.
    assert (U : forall j, 0 <= j ->
              bra s (Z.pos M) (E + j) loc_Exact =
              let r2 := shr_fexp prec emax m1 (E + j + Z.pos p) loc_Exact in
              match shr_m (fst r2) with
              | Z0 => S754_zero s
              | Zpos m =>
                  if snd r2 <=? 971 then S754_finite s m (snd r2)
                  else S754_infinity s
              | Zneg _ => S754_nan
              end).
    { intros j Hj. rewrite bra_unfold, K by exact Hj. reflexivity. }
    destruct (Z.eq_dec m1 (2 ^ 53)) as [Top|Top].
    + exists 4503599627370496%positive, (E + Z.pos p + 1).
      split; [reflexivity|]. split; [lia|]. intros j Hj.
      rewrite (U j Hj), Top.
      change (2 ^ 53) with (Z.pos 9007199254740992).
      rewrite shr_fexp_normal
        by (change (Z.pos (digits2_pos 9007199254740992)) with 54; lia).
      change (Z.pos (digits2_pos 9007199254740992) - 53) with 1.
      cbn [shr iter_pos shr_1 fst snd shr_m orb].
      replace (E + j + Z.pos p + 1) with (E + Z.pos p + 1 + j) by lia.
      reflexivity.
    + destruct m1 as [|m|m] eqn:Em; try (exfalso; lia).
      assert (Dm : Z.pos (digits2_pos m) = 53)
        by (apply digits2_pos_unique; lia).
      exists m, (E + Z.pos p). split; [exact Dm|]. split; [lia|].
      intros j Hj. rewrite (U j Hj).
      rewrite shr_fexp_normal by lia. rewrite Dm.
      change (53 - 53) with 0. cbn [shr fst snd shr_m].
      replace (E + j + Z.pos p) with (E + Z.pos p + j) by lia.
      reflexivity.
Qed.

Lemma digits2_pos_mul_ge (a b : positive) :
  Z.pos (digits2_pos b) <= Z.pos (digits2_pos (a * b)).
Proof.
  pose proof (digits2_pos_bounds b) as Bb.
  pose proof (digits2_pos_bounds (a * b)) as Bab.
  destruct (Z.le_gt_cases (Z.pos (digits2_pos b)) (Z.pos (digits2_pos (a * b))))
    as [L|L]; [exact L|exfalso].
  assert (2 ^ Z.pos (digits2_pos (a * b)) <= 2 ^ (Z.pos (digits2_pos b) - 1))
    by (apply Z.pow_le_mono_r; lia).
  rewrite Pos2Z.inj_mul in Bab. nia.
Qed.

Lemma digits2_pos_shift (m d : positive) :
  Z.pos (digits2_pos (Pos.iter xO m d)) = Z.pos (digits2_pos m) + Z.pos d.
Proof.
  induction d as [|d IH] using Pos.peano_ind.
  - simpl. lia.
  - rewrite Pos.iter_succ. cbn [digits2_pos]. lia.
Qed.

Lemma normal_from_le a b x : b <= a -> normal_from a x -> normal_from b x.
Proof.
  intros L. destruct x; simpl; auto. intros [D H]. split; [exact D | lia].
Qed.

Lemma bra_normal_from s M E :
  53 <= Z.pos (digits2_pos M) -> -1074 <= E ->
  normal_from E (bra s (Z.pos M) E loc_Exact).
Proof.
  intros D HE. destruct (bra_normal s M E D HE) as (m & e & Dm & Le & H).
  specialize (H 0 ltac:(lia)). rewrite !Z.add_0_r in H. rewrite H.
  destruct (e <=? 971); simpl; [split; [exact Dm | lia] | exact I].
Qed.

Lemma round_int_normal (n : Z) : normal_from (-52) (round_int n).
Proof.
  assert (P : forall s N, normal_from (-52) (binary_round prec emax s N 0)).
  { intros s N. unfold binary_round, shl_align, fexp, SpecFloat.emin, prec, emax.
    pose proof (digits2_pos_bounds N) as B.
    assert (1 <= Z.pos (digits2_pos N)) by lia.
    replace (Z.max (Z.pos (digits2_pos N) + 0 - 53) (3 - 1024 - 53) - 0)
      with (Z.pos (digits2_pos N) - 53) by lia.
    replace (Z.max (Z.pos (digits2_pos N) + 0 - 53) (3 - 1024 - 53))
      with (Z.pos (digits2_pos N) - 53) by lia.
    destruct (Z.pos (digits2_pos N) - 53) as [|k|k] eqn:E.
    - apply (normal_from_le 0); [lia|]. apply bra_normal_from; lia.
    - apply (normal_from_le 0); [lia|]. apply bra_normal_from; lia.
    - apply (normal_from_le (Z.neg k)); [lia|].
      apply bra_normal_from; [|lia]. rewrite digits2_pos_shift. lia. }
  destruct n as [|N|N]; [exact I | apply P | apply P].
Qed.

(** The product of a normal number with a float of 53 digits is normal
    again. *)
Lemma mul_normal x s m e a :
  Z.pos (digits2_pos m) = 53 -> -1074 <= a + e ->
  normal_from a x -> normal_from (a + e) (mul x (S754_finite s m e)).
Proof.
  intros Dm Ha. destruct x as [sx|sx| |sx mx ex]; simpl; auto.
  intros [Dx Hx]. fold (bra (xorb sx s) (Z.pos (mx * m)) (ex + e) loc_Exact).
  apply (normal_from_le (ex + e)); [lia|]. apply bra_normal_from; [|lia].
  pose proof (digits2_pos_mul_ge mx m). lia.
Qed.

(** Twice a normal number: the exponent moves by one. *)
Lemma mul_two_normal s m e :
  Z.pos (digits2_pos m) = 53 -> -1074 <= e ->
  mul (round_int 2) (S754_finite s m e) =
  if e + 1 <=? 971 then S754_finite s m (e + 1) else S754_infinity s.
Proof.
  intros Dm He.
  change (round_int 2) with (S754_finite false 4503599627370496 (-51)).
  unfold mul, SFmul. cbn [xorb]. fold (bra s).
  assert (D : Z.pos (digits2_pos (4503599627370496 * m)) = 105).
  { apply digits2_pos_unique. rewrite Pos2Z.inj_mul.
    pose proof (digits2_pos_bounds m) as B. rewrite Dm in B.
    change (2 ^ (53 - 1)) with 4503599627370496 in B.
    change (2 ^ 53) with 9007199254740992 in B.
    change (2 ^ (105 - 1)) with (4503599627370496 * 4503599627370496).
    change (2 ^ 105) with (4503599627370496 * 9007199254740992).
    lia. }
  rewrite bra_unfold, shr_fexp_normal by lia. rewrite D.
  change (105 - 53) with 52. cbn [Pos.mul].
  cbn [shr iter_pos shr_1 orb fst snd shr_m loc_of_shr_record
         round_nearest_even].
  rewrite shr_fexp_normal by lia. rewrite Dm. change (53 - 53) with 0.
  cbn [shr fst snd shr_m].
  replace (-51 + e + 52) with (e + 1) by lia. reflexivity.
Qed.

(** Python's [3.0], [6.0] and [2.0]. *)
Lemma round_int_3 : round_int 3 = S754_finite false 6755399441055744 (-51).
Proof. reflexivity. Qed.

Lemma round_int_6 : round_int 6 = S754_finite false 6755399441055744 (-50).
Proof. reflexivity. Qed.

(** Six times a normal number is twice three times that number, as
    floats. *)
Lemma mul_six_twice_mul_three x :
  normal_from (-1000) x ->
  mul x (round_int 6) = mul (round_int 2) (mul x (round_int 3)).
Proof.
  rewrite round_int_3, round_int_6.
  destruct x as [s|s| |s m e]; intros N.
  - destruct s; reflexivity.
  - destruct s; reflexivity.
  - reflexivity.
  - destruct N as [Dm He]. unfold mul at 1 3. unfold SFmul.
    fold (bra (xorb s false)).
    destruct (bra_normal (xorb s false) (m * 6755399441055744) (e + -51))
      as (m' & e' & Dm' & Le & H).
    + pose proof (digits2_pos_mul_ge m 6755399441055744) as G.
      change (Z.pos (digits2_pos 6755399441055744)) with 53 in G. exact G.
    + lia.
    + pose proof (H 0 ltac:(lia)) as H0. pose proof (H 1 ltac:(lia)) as H1.
      rewrite Z.add_0_r in H0.
      replace (e + -51 + 1) with (e + -50) in H1 by lia.
      rewrite H0, H1. destruct (e' + 0 <=? 971) eqn:C.
      * rewrite mul_two_normal by lia. rewrite Z.add_0_r. reflexivity.
      * assert (C1 : (e' + 1 <=? 971) = false) by lia. rewrite C1.
        destruct (xorb s false); reflexivity.
Qed.

(** An integer below [2 ^ 1023] in absolute value is within the range of
    the floats. *)
Lemma round_int_in_range (n : Z) :
  Z.abs n < 2 ^ 1023 ->
  match round_int n with S754_infinity _ => False | _ => True end.
Proof.
  assert (P : forall s N,
             Z.pos N < 2 ^ 1023 ->
             match binary_round prec emax s N 0 with
             | S754_infinity _ => False
             | _ => True
             end).
  { intros s N HN.
    unfold binary_round, shl_align, fexp, SpecFloat.emin, prec, emax.
    pose proof (digits2_pos_bounds N) as B.
    assert (D : Z.pos (digits2_pos N) <= 1023).
    { destruct (Z.le_gt_cases (Z.pos (digits2_pos N)) 1023) as [L|L];
        [exact L|exfalso].
      assert (2 ^ 1023 <= 2 ^ (Z.pos (digits2_pos N) - 1))
        by (apply Z.pow_le_mono_r; lia). lia. }
    assert (1 <= Z.pos (digits2_pos N)) by lia.
    replace (Z.max (Z.pos (digits2_pos N) + 0 - 53) (3 - 1024 - 53) - 0)
      with (Z.pos (digits2_pos N) - 53) by lia.
    replace (Z.max (Z.pos (digits2_pos N) + 0 - 53) (3 - 1024 - 53))
      with (Z.pos (digits2_pos N) - 53) by lia.
    assert (G : forall M E,
               53 <= Z.pos (digits2_pos M) -> -1074 <= E ->
               E + Z.pos (digits2_pos M) - 52 <= 971 ->
               match bra s (Z.pos M) E loc_Exact with
               | S754_infinity _ => False
               | _ => True
               end).
    { intros M E DM HE HU.
      destruct (bra_normal s M E DM HE) as (m & e & _ & Le & R).
      specialize (R 0 ltac:(lia)). rewrite !Z.add_0_r in R. rewrite R.
      assert (C : (e <=? 971) = true) by lia. rewrite C. exact I. }
    destruct (Z.pos (digits2_pos N) - 53) as [|k|k] eqn:E.
    - apply G; lia.
    - apply G; lia.
    - apply G; rewrite ?digits2_pos_shift; lia. }
  destruct n as [|N|N]; intros H; [exact I | apply P; lia | apply P; lia].
Qed.

(** A float that is a number equals itself. *)
Lemma eqb_refl (x : float) : x <> S754_nan -> eqb x x = true.
Proof.
  unfold eqb, SFeqb. destruct x as [s|s| |s m e]; intros N.
  - reflexivity.
  - destruct s; reflexivity.
  - congruence.
  - simpl. rewrite Z.compare_refl, Pos.compare_cont_refl.
    destruct s; reflexivity.
Qed.

(** *** Doubling *)

(** Rounding twice a mantissa is rounding the mantissa one exponent up. *)
Lemma bra_double (s : bool) (M : positive) (E : Z) :
  53 <= Z.pos (digits2_pos M) -> -1074 <= E ->
  bra s (Z.pos M~0) E loc_Exact = bra s (Z.pos M) (E + 1) loc_Exact.
Proof.
  intros D HE. rewrite !bra_unfold. cbn zeta.
  assert (D2 : Z.pos (digits2_pos M~0) = Z.pos (digits2_pos M) + 1)
    by (cbn [digits2_pos]; lia).
  rewrite (shr_fexp_normal M~0 E) by lia.
  rewrite (shr_fexp_normal M (E + 1)) by lia.
  rewrite D2.
  assert (K : shr {| shr_m := Z.pos M~0; shr_r := false; shr_s := false |} E
                (Z.pos (digits2_pos M) + 1 - 53)
              = shr {| shr_m := Z.pos M; shr_r := false; shr_s := false |}
                  (E + 1) (Z.pos (digits2_pos M) - 53)).
  { destruct (Z.pos (digits2_pos M) - 53) as [|p|p] eqn:Ek; try lia.
    - replace (Z.pos (digits2_pos M) + 1 - 53) with 1 by lia. reflexivity.
    - replace (Z.pos (digits2_pos M) + 1 - 53) with (Z.pos (Pos.succ p))
        by lia.
      cbn [shr]. f_equal; [|lia].
      rewrite !iter_pos_nat, Pos2Nat.inj_succ, Nat.iter_succ_r.
      reflexivity. }
  rewrite K. reflexivity.
Qed.


(** [binary_round] of an integer, by the number of its digits. *)
Lemma binary_round_aligned (s : bool) (N : positive) :
  binary_round prec emax s N 0
  = match Z.pos (digits2_pos N) - 53 with
    | Z.neg k => bra s (Z.pos (Pos.iter xO N k)) (Z.neg k) loc_Exact
    | _ => bra s (Z.pos N) 0 loc_Exact
    end.
Proof.
  unfold binary_round, shl_align, fexp, SpecFloat.emin, prec, emax.
  assert (1 <= Z.pos (digits2_pos N)) by lia.
  replace (Z.max (Z.pos (digits2_pos N) + 0 - 53) (3 - 1024 - 53) - 0)
    with (Z.pos (digits2_pos N) - 53) by lia.
  replace (Z.max (Z.pos (digits2_pos N) + 0 - 53) (3 - 1024 - 53))
    with (Z.pos (digits2_pos N) - 53) by lia.
  destruct (Z.pos (digits2_pos N) - 53); reflexivity.
Qed.

(** The float of twice an integer has the mantissa of the float of the
    integer and the next exponent. *)
Lemma binary_round_double (s : bool) (N : positive) :
  exists m e,
    Z.pos (digits2_pos m) = 53 /\ -52 <= e
    /\ binary_round prec emax s N 0
       = (if e <=? 971 then S754_finite s m e else S754_infinity s)
    /\ binary_round prec emax s N~0 0
       = (if e + 1 <=? 971 then S754_finite s m (e + 1)
          else S754_infinity s).
Proof.
  rewrite !binary_round_aligned.
  assert (D2 : Z.pos (digits2_pos N~0) = Z.pos (digits2_pos N) + 1)
    by (cbn [digits2_pos]; lia).
  rewrite D2.
  assert (G : forall M E,
             53 <= Z.pos (digits2_pos M) -> -52 <= E ->
             exists m e,
               Z.pos (digits2_pos m) = 53 /\ -52 <= e
               /\ bra s (Z.pos M) E loc_Exact
                  = (if e <=? 971 then S754_finite s m e
                     else S754_infinity s)
               /\ bra s (Z.pos M) (E + 1) loc_Exact
                  = (if e + 1 <=? 971 then S754_finite s m (e + 1)
                     else S754_infinity s)).
  { intros M E DM HE.
    destruct (bra_normal s M E DM ltac:(lia)) as (m & e & Dm & Le & R).
    exists m, e. split; [exact Dm|]. split; [lia|].
    pose proof (R 0 ltac:(lia)) as R0. pose proof (R 1 ltac:(lia)) as R1.
    rewrite !Z.add_0_r in R0. split; assumption. }
  destruct (Z.pos (digits2_pos N) - 53) as [|k|k] eqn:Ek.
  - replace (Z.pos (digits2_pos N) + 1 - 53) with 1 by lia.
    rewrite bra_double by lia. apply G; lia.
  - replace (Z.pos (digits2_pos N) + 1 - 53) with (Z.pos (k + 1)) by lia.
    rewrite bra_double by lia. apply G; lia.
  - destruct (Pos.eq_dec k 1) as [->|K1].
    + replace (Z.pos (digits2_pos N) + 1 - 53) with 0 by lia.
      change (Pos.iter xO N 1) with (N~0)%positive.
      apply (G (N~0)%positive (-1)); lia.
    + replace (Z.pos (digits2_pos N) + 1 - 53) with (Z.neg (Pos.pred k))
        by lia.
      assert (I : Pos.iter xO (N~0)%positive (Pos.pred k) = Pos.iter xO N k).
      { rewrite <- (Pos.succ_pred k K1) at 2.
        rewrite Pos.iter_succ_r. reflexivity. }
      rewrite I.
      replace (Z.neg (Pos.pred k)) with (Z.neg k + 1) by lia.
      apply G; [rewrite digits2_pos_shift; lia | lia].
Qed.

(** The float of twice an integer, for an integer below [2 ^ 1022] in
    absolute value. *)
Lemma round_int_double (n : Z) :
  Z.abs n < 2 ^ 1022 ->
  round_int n = S754_zero false /\ round_int (2 * n) = S754_zero false
  \/ exists s m e,
       Z.pos (digits2_pos m) = 53 /\ -52 <= e
       /\ round_int n = S754_finite s m e
       /\ round_int (2 * n) = S754_finite s m (e + 1).
Proof.
  intros B.
  assert (B2 : Z.abs (2 * n) < 2 ^ 1023).
  { change (2 ^ 1023) with (2 * 2 ^ 1022). lia. }
  pose proof (round_int_in_range n ltac:(lia)) as F1.
  pose proof (round_int_in_range (2 * n) B2) as F2.
  destruct n as [|N|N]; [left; split; reflexivity | right | right].
  - destruct (binary_round_double false N) as (m & e & Dm & Le & R1 & R2).
    change (round_int (Z.pos N)) with (binary_round prec emax false N 0)
      in *.
    change (round_int (2 * Z.pos N))
      with (binary_round prec emax false N~0 0) in *.
    rewrite R1 in *. rewrite R2 in *.
    destruct (e + 1 <=? 971) eqn:C1; [|destruct F2].
    assert (C : (e <=? 971) = true) by lia. rewrite C.
    exists false, m, e. repeat split; assumption || lia.
  - destruct (binary_round_double true N) as (m & e & Dm & Le & R1 & R2).
    change (round_int (Z.neg N)) with (binary_round prec emax true N 0)
      in *.
    change (round_int (2 * Z.neg N))
      with (binary_round prec emax true N~0 0) in *.
    rewrite R1 in *. rewrite R2 in *.
    destruct (e + 1 <=? 971) eqn:C1; [|destruct F2].
    assert (C : (e <=? 971) = true) by lia. rewrite C.
    exists true, m, e. repeat split; assumption || lia.
Qed.

(** A product with the next exponent is twice the product, as floats. *)
Lemma mul_next_exponent x s m e :
  Z.pos (digits2_pos m) = 53 -> -52 <= e -> normal_from (-1000) x ->
  mul x (S754_finite s m (e + 1))
  = mul (round_int 2) (mul x (S754_finite s m e)).
Proof.
  intros Dm He N. destruct x as [sx|sx| |sx mx ex].
  - cbn. destruct (xorb sx s); reflexivity.
  - cbn. destruct (xorb sx s); reflexivity.
  - reflexivity.
  - destruct N as [Dx Hx]. unfold mul at 1 3. unfold SFmul.
    fold (bra (xorb sx s)).
    destruct (bra_normal (xorb sx s) (mx * m) (ex + e))
      as (m' & e' & Dm' & Le & H).
    + pose proof (digits2_pos_mul_ge mx m) as G. lia.
    + lia.
    + pose proof (H 0 ltac:(lia)) as H0. pose proof (H 1 ltac:(lia)) as H1.
      rewrite Z.add_0_r in H0.
      replace (ex + e + 1) with (ex + (e + 1)) in H1 by lia.
      rewrite H0, H1. destruct (e' + 0 <=? 971) eqn:C.
      * rewrite mul_two_normal by lia. rewrite Z.add_0_r. reflexivity.
      * assert (C1 : (e' + 1 <=? 971) = false) by lia. rewrite C1.
        destruct (xorb sx s); reflexivity.
Qed.

(** A product with zero is its own double. *)
Lemma mul_zero_twice x :
  mul x (S754_zero false) = mul (round_int 2) (mul x (S754_zero false)).
Proof. destruct x as [[|]|[|]| |[|] m e]; reflexivity. Qed.

End PyFloatFacts.

(** ** The fine-tuning notebook: token count *)

Module FineTuningSpec.
Import FineTuning.

Lemma str_eqb_eq (s t : str) : str_eqb s t = true <-> s = t.
Proof. apply (PySeqFacts.seq_eqb_eq Ascii.eqb Ascii.eqb_spec). Qed.

Section TokenCount.

Context {Token : Type}.
Variable encode : str -> list Token.

Local Abbreviation value_tokens := (FineTuning.value_tokens encode).
Local Abbreviation encoded_tokens := (FineTuning.encoded_tokens encode).

Open Scope Z_scope.

Lemma count_items tokens_per_name (message : Message) :
  forall num_tokens,
    fold_left (count_item encode tokens_per_name) message num_tokens
    = num_tokens + value_tokens message
      + tokens_per_name * role_fields message.
Proof.
  unfold role_fields.
  induction message as [|[key value] rest IH]; intros num_tokens.
  - simpl. lia.
  - simpl fold_left. rewrite IH. simpl.
    destruct (str_eqb key (py "role")); simpl length; lia.
Qed.

Lemma count_messages tokens_per_message tokens_per_name
  (messages : list Message) :
  forall num_tokens,
    fold_left (count_message encode tokens_per_message tokens_per_name)
      messages num_tokens
    = num_tokens + tokens_per_message * Z.of_nat (length messages)
      + encoded_tokens messages
      + tokens_per_name * role_fields_of messages.
Proof.
  induction messages as [|m rest IH]; intros num_tokens.
  - simpl. lia.
  - simpl fold_left. rewrite IH. unfold count_message.
    rewrite count_items. simpl encoded_tokens. simpl role_fields_of.
    simpl length. lia.
Qed.

(** A [dict] has one item per key; a message with the key ["role"] has
    one field with that key. *)
Lemma one_role_field (message : Message) :
  NoDup (map fst message) -> In (py "role") (map fst message) ->
  role_fields message = 1.
Proof.
  unfold role_fields. intros D H.
  induction message as [|[key value] rest IH]; [destruct H|].
  simpl in D, H. inversion D as [|? ? Hkey Drest]; subst. simpl.
  destruct (str_eqb key (py "role")) eqn:E.
  - apply str_eqb_eq in E. subst key.
    assert (F : filter (fun item => str_eqb (fst item) (py "role")) rest = []).
    { clear -Hkey. induction rest as [|[k v] rest IH]; [reflexivity|].
      simpl. destruct (str_eqb k (py "role")) eqn:E.
      - apply str_eqb_eq in E. subst k. exfalso. apply Hkey. left. reflexivity.
      - apply IH. intros H. apply Hkey. right. exact H. }
    rewrite F. reflexivity.
  - destruct H as [H|H].
    + apply str_eqb_eq in H. congruence.
    + apply IH; assumption.
Qed.

(** C3. The token count of a conversation is 3 tokens for each message,
    the tokens the tokenizer gives for the value of each field, 1 token
    for each field whose key is ["role"], and 3 tokens once. For two
    messages that each have a ["role"] field this is 6, the tokens of the
    values, 2 and 3. The general count uses the two keyword parameters
    in place of 3 and 1. *)
Theorem num_tokens_from_messages_additive :
  (forall messages : list Message,
      num_tokens_of_conversation encode messages
      = 3 * Z.of_nat (length messages) + encoded_tokens messages
        + role_fields_of messages + 3)
  /\ (forall m1 m2 : Message,
         NoDup (map fst m1) -> In (py "role") (map fst m1) ->
         NoDup (map fst m2) -> In (py "role") (map fst m2) ->
         num_tokens_of_conversation encode [m1; m2]
         = 6 + (value_tokens m1 + value_tokens m2) + 2 + 3)
  /\ (forall (messages : list Message) tokens_per_message tokens_per_name,
         num_tokens_from_messages encode messages
           tokens_per_message tokens_per_name
         = tokens_per_message * Z.of_nat (length messages)
           + encoded_tokens messages
           + tokens_per_name * role_fields_of messages + 3).
Proof.
  assert (G : forall (messages : list Message) tpm tpn,
             num_tokens_from_messages encode messages tpm tpn
             = tpm * Z.of_nat (length messages) + encoded_tokens messages
               + tpn * role_fields_of messages + 3).
  { intros. unfold num_tokens_from_messages. rewrite count_messages. lia. }
  split; [|split; [|exact G]].
  - intros messages. unfold num_tokens_of_conversation. rewrite G. lia.
  - intros m1 m2 D1 R1 D2 R2. unfold num_tokens_of_conversation. rewrite G.
    cbn [length encoded_tokens role_fields_of fold_right].
    rewrite (one_role_field m1 D1 R1), (one_role_field m2 D2 R2). lia.
Qed.

End TokenCount.

(** The second clause of C3 for a user and an assistant message, with a
    tokenizer that makes one token of each character. *)
Lemma num_tokens_from_messages_additive_witness :
  num_tokens_of_conversation (fun s : str => s)
    [[(py "role", py "user"); (py "content", py "hello")];
     [(py "role", py "assistant"); (py "content", py "hi")]]
  = (6 + (value_tokens (fun s : str => s)
            [(py "role", py "user"); (py "content", py "hello")]
          + value_tokens (fun s : str => s)
              [(py "role", py "assistant"); (py "content", py "hi")])
     + 2 + 3)%Z.
Proof.
  apply (proj1 (proj2 (num_tokens_from_messages_additive (fun s : str => s)))).
  - repeat constructor; simpl; intuition discriminate.
  - left. reflexivity.
  - repeat constructor; simpl; intuition discriminate.
  - left. reflexivity.
Defined.

(** ** The fine-tuning notebook: cost estimate *)

Lemma training_cost_per_token_value :
  training_cost_per_token = Returns PRICE_PER_TOKEN.
Proof. reflexivity. Qed.

(** The literal is the correctly rounded quotient of 33 by 10000. *)
Lemma PRICE_PER_1K_TOKENS_value :
  PyFloat.truediv (PyFloat.round_int 33) (PyFloat.round_int 10000)
  = Returns PRICE_PER_1K_TOKENS.
Proof. reflexivity. Qed.

Lemma of_int_round_int n x :
  PyFloat.of_int n = Returns x -> x = PyFloat.round_int n.
Proof.
  unfold PyFloat.of_int. destruct (PyFloat.round_int n); congruence.
Qed.

(** The cost of the tokens for one epoch is a normal float, zero or an
    infinity. *)
Lemma tokens_cost_normal n x :
  PyFloat.of_int n = Returns x ->
  PyFloat.normal_from (-1000) (PyFloat.mul x PRICE_PER_TOKEN).
Proof.
  intros H. apply of_int_round_int in H. subst x.
  apply (PyFloatFacts.normal_from_le (-52 + -71)); [lia|].
  apply PyFloatFacts.mul_normal; [reflexivity | lia |].
  apply PyFloatFacts.round_int_normal.
Qed.

(** C6 fails as it is stated: the estimate is not linear in the number
    of epochs. For 13 tokens the estimate with 9 epochs is the float
    [0x1.94daedf7bfbfap-12], and 3 times the estimate with 3 epochs is
    the float [0x1.94daedf7bfbf9p-12]: each product is rounded. *)
Lemma total_cost_not_linear_in_epochs :
  total_cost 13 9 = Returns (S754_finite false 7122287886859258 (-64))
  /\ (estimate <- total_cost 13 3 ;; PyFloat.int_mul_float 3 estimate)
     = Returns (S754_finite false 7122287886859257 (-64))
  /\ total_cost 13 9
     <> (estimate <- total_cost 13 3 ;; PyFloat.int_mul_float 3 estimate)
  /\ PyFloat.eqb (S754_finite false 7122287886859258 (-64))
       (S754_finite false 7122287886859257 (-64)) = false.
Proof.
  assert (E9 : total_cost 13 9
               = Returns (S754_finite false 7122287886859258 (-64)))
    by reflexivity.
  assert (E3 : (estimate <- total_cost 13 3 ;;
                PyFloat.int_mul_float 3 estimate)
               = Returns (S754_finite false 7122287886859257 (-64)))
    by reflexivity.
  split; [exact E9|]. split; [exact E3|]. split; [|reflexivity].
  rewrite E9, E3. discriminate.
Qed.

(** C6, amended. The estimated cost is the token count times the price
    of a token times the number of epochs, each product a float product,
    rounded. Doubling the number of epochs doubles the estimate: the
    estimate with twice the epochs is the same float as [2 * estimate].
    So with 6 epochs it is twice the estimate with 3 epochs, for the
    same token count, and equal to it under [==]. A token count below
    [2 ^ 1023] in absolute value gives an estimate (no
    [OverflowError]). For 1000 tokens and 3 epochs the estimate is the
    float [0x1.4467381d7dbf4p-7]. *)
Theorem total_cost_six_epochs_twice_three (num_tokens : Z) :
  (forall num_epochs,
      total_cost num_tokens num_epochs
      = (tokens <- PyFloat.of_int num_tokens ;;
         epochs <- PyFloat.of_int num_epochs ;;
         Returns (PyFloat.mul (PyFloat.mul tokens PRICE_PER_TOKEN) epochs)))
  /\ (forall num_epochs,
         (Z.abs num_epochs < 2 ^ 1022)%Z ->
         total_cost num_tokens (2 * num_epochs)
         = (estimate <- total_cost num_tokens num_epochs ;;
            PyFloat.int_mul_float 2 estimate))
  /\ total_cost num_tokens 6
     = (estimate <- total_cost num_tokens 3 ;;
        PyFloat.int_mul_float 2 estimate)
  /\ ((Z.abs num_tokens < 2 ^ 1023)%Z ->
      exists estimate3 estimate6 twice,
        total_cost num_tokens 3 = Returns estimate3
        /\ total_cost num_tokens 6 = Returns estimate6
        /\ PyFloat.int_mul_float 2 estimate3 = Returns twice
        /\ estimate6 = twice
        /\ PyFloat.eqb estimate6 twice = true)
  /\ total_cost 1000 3
     = Returns (S754_finite false 5706961447803892 (-59)).
Proof.
  assert (F : forall num_epochs,
             total_cost num_tokens num_epochs
             = (tokens <- PyFloat.of_int num_tokens ;;
                epochs <- PyFloat.of_int num_epochs ;;
                Returns (PyFloat.mul (PyFloat.mul tokens PRICE_PER_TOKEN)
                           epochs))).
  { intros num_epochs. unfold total_cost.
    rewrite training_cost_per_token_value. cbn [bind].
    unfold PyFloat.int_mul_float, PyFloat.float_mul_int.
    destruct (PyFloat.of_int num_tokens); reflexivity. }
  assert (D : forall num_epochs,
             (Z.abs num_epochs < 2 ^ 1022)%Z ->
             total_cost num_tokens (2 * num_epochs)
             = (estimate <- total_cost num_tokens num_epochs ;;
                PyFloat.int_mul_float 2 estimate)).
  { intros num_epochs B. rewrite !F.
    destruct (PyFloat.of_int num_tokens) as [tokens|e] eqn:O;
      [|reflexivity].
    cbn [bind]. pose proof (tokens_cost_normal num_tokens tokens O) as N.
    unfold PyFloat.int_mul_float.
    change (PyFloat.of_int 2) with (Returns (PyFloat.round_int 2)).
    unfold PyFloat.of_int.
    destruct (PyFloatFacts.round_int_double num_epochs B)
      as [[-> ->]|(s & m & x & Dm & Lx & -> & ->)]; cbn [bind]; f_equal.
    - apply PyFloatFacts.mul_zero_twice.
    - apply PyFloatFacts.mul_next_exponent; assumption. }
  assert (T : forall tokens,
             PyFloat.of_int num_tokens = Returns tokens ->
             PyFloat.mul (PyFloat.mul tokens PRICE_PER_TOKEN)
               (PyFloat.round_int 6)
             = PyFloat.mul (PyFloat.round_int 2)
                 (PyFloat.mul (PyFloat.mul tokens PRICE_PER_TOKEN)
                    (PyFloat.round_int 3))).
  { intros tokens H. apply PyFloatFacts.mul_six_twice_mul_three.
    apply (tokens_cost_normal num_tokens tokens H). }
  split; [exact F|]. split; [exact D|]. split; [|split; [|reflexivity]].
  - apply (D 3%Z). reflexivity.
  - intros R.
    pose proof (PyFloatFacts.round_int_in_range num_tokens R) as Hfin.
    assert (O : PyFloat.of_int num_tokens
                = Returns (PyFloat.round_int num_tokens)).
    { unfold PyFloat.of_int. destruct (PyFloat.round_int num_tokens);
        [reflexivity | destruct Hfin | reflexivity | reflexivity]. }
    eexists. eexists. eexists. rewrite !F, O.
    change (PyFloat.of_int 6) with (Returns (PyFloat.round_int 6)).
    change (PyFloat.of_int 3) with (Returns (PyFloat.round_int 3)).
    cbn [bind]. unfold PyFloat.int_mul_float.
    change (PyFloat.of_int 2) with (Returns (PyFloat.round_int 2)).
    cbn [bind]. split; [reflexivity|]. split; [reflexivity|].
    split; [reflexivity|]. rewrite (T _ O). split; [reflexivity|].
    apply PyFloatFacts.eqb_refl.
    pose proof (tokens_cost_normal num_tokens _ O) as N.
    pose proof (PyFloatFacts.mul_normal _ false 6755399441055744 (-51)
                  (-1000) eq_refl ltac:(lia) N) as N3.
    change (S754_finite false 6755399441055744 (-51))
      with (PyFloat.round_int 3) in N3.
    destruct (PyFloat.mul (PyFloat.mul (PyFloat.round_int num_tokens)
                             PRICE_PER_TOKEN) (PyFloat.round_int 3))
      as [s|s| |s m e] eqn:E3; try (destruct N3; fail).
    + destruct s; discriminate.
    + destruct s; discriminate.
    + destruct N3 as [Dm He].
      rewrite PyFloatFacts.mul_two_normal by (assumption || lia).
      destruct (e + 1 <=? 971)%Z; discriminate.
Qed.

(** The second and fourth clauses of C6, amended, for a training file of
    1000 tokens: 10 epochs against 5, and 6 against 3. *)
Lemma total_cost_six_epochs_twice_three_witness :
  total_cost 1000 (2 * 5)
  = (estimate <- total_cost 1000 5 ;; PyFloat.int_mul_float 2 estimate)
  /\ exists estimate3 estimate6 twice,
      total_cost 1000 3 = Returns estimate3
      /\ total_cost 1000 6 = Returns estimate6
      /\ PyFloat.int_mul_float 2 estimate3 = Returns twice
      /\ estimate6 = twice
      /\ PyFloat.eqb estimate6 twice = true.
Proof.
  split.
  - apply (proj1 (proj2 (total_cost_six_epochs_twice_three 1000)) 5%Z).
    reflexivity.
  - apply (proj1 (proj2 (proj2 (proj2
             (total_cost_six_epochs_twice_three 1000))))).
    reflexivity.
Defined.

(** C6 on a training file of 1000 tokens: the estimates are the floats
    [0x1.4467381d7dbf4p-7] and [0x1.4467381d7dbf4p-6], which Python prints
    as [0.009899999999999999] and [0.019799999999999998]. *)
Example total_cost_1000_tokens :
  total_cost 1000 3 = Returns (S754_finite false 5706961447803892 (-59))
  /\ total_cost 1000 6 = Returns (S754_finite false 5706961447803892 (-58)).
Proof. split; reflexivity. Qed.

(** ** The fine-tuning notebook: monitoring the job *)

Section Polling.

Variable retrieve : JobService.

Local Abbreviation nonterminal_before :=
  (FineTuning.nonterminal_before retrieve).
Local Abbreviation nonterminal_from := (FineTuning.nonterminal_from retrieve).

Lemma is_terminal_iff s :
  is_terminal s = true <-> s = py "succeeded" \/ s = py "failed".
Proof.
  unfold is_terminal. simpl. rewrite !orb_true_iff, !str_eqb_eq.
  intuition discriminate.
Qed.

Lemma poll_loop_terminal fuel calls s :
  is_terminal s = true -> poll_loop retrieve fuel calls s = (Finished s, []).
Proof. intros H. destruct fuel; simpl; rewrite H; reflexivity. Qed.

Lemma poll_loop_step fuel calls s job :
  is_terminal s = false -> retrieve calls = Returns job ->
  poll_loop retrieve (S fuel) calls s
  = (fst (poll_loop retrieve fuel (S calls) (status job)),
     [Sleep 10; Retrieve; PrintJob job; PrintElapsed;
      PrintStatus (status job); ClearOutput]
       ++ snd (poll_loop retrieve fuel (S calls) (status job))).
Proof.
  intros H R. simpl. rewrite H, R.
  destruct (poll_loop retrieve fuel (S calls) (status job)). reflexivity.
Qed.

Lemma poll_loop_raise fuel calls s e :
  is_terminal s = false -> retrieve calls = Raises e ->
  poll_loop retrieve (S fuel) calls s = (Aborted e, round).
Proof. intros H R. simpl. rewrite H, R. reflexivity. Qed.

Lemma nonterminal_from_S calls k :
  nonterminal_from calls (S k) -> nonterminal_from (S calls) k.
Proof.
  intros H j Hj. destruct (H (S j)) as (job & R & T); [lia|].
  exists job. split; [|exact T]. rewrite <- R. f_equal. lia.
Qed.

(** The loop leaves with the first terminal status, after one round for
    each retrieval it took to get there. *)
Lemma poll_loop_finishes k :
  forall calls s fuel job,
    k <= fuel ->
    is_terminal s = false ->
    nonterminal_from calls k ->
    retrieve (calls + k) = Returns job ->
    is_terminal (status job) = true ->
    exists trace,
      poll_loop retrieve (S fuel) calls s = (Finished (status job), trace)
      /\ sleeps trace = repeat 10%Z (S k)
      /\ calls_and_sleeps trace = concat (repeat round (S k)).
Proof.
  induction k as [|k IH]; intros calls s fuel job Hf Hs Hn R T.
  - rewrite Nat.add_0_r in R. rewrite (poll_loop_step _ _ _ _ Hs R).
    rewrite (poll_loop_terminal _ _ _ T). eexists. split; [reflexivity|].
    split; reflexivity.
  - destruct (Hn 0) as (job0 & R0 & T0); [lia|]. rewrite Nat.add_0_r in R0.
    destruct fuel as [|fuel]; [lia|].
    destruct (IH (S calls) (status job0) fuel job) as (trace & E & Sl & Cs).
    + lia.
    + exact T0.
    + apply nonterminal_from_S, Hn.
    + rewrite <- R. f_equal. lia.
    + exact T.
    + rewrite (poll_loop_step _ _ _ _ Hs R0), E. eexists.
      split; [reflexivity|]. simpl. rewrite Sl, Cs. split; reflexivity.
Qed.

(** An exception of a retrieval goes through the loop. *)
Lemma poll_loop_aborts k :
  forall calls s fuel e,
    k <= fuel ->
    is_terminal s = false ->
    nonterminal_from calls k ->
    retrieve (calls + k) = Raises e ->
    exists trace,
      poll_loop retrieve (S fuel) calls s = (Aborted e, trace)
      /\ calls_and_sleeps trace = concat (repeat round (S k))
      /\ trace = removelast trace ++ [Retrieve].
Proof.
  induction k as [|k IH]; intros calls s fuel e Hf Hs Hn R.
  - rewrite Nat.add_0_r in R. rewrite (poll_loop_raise _ _ _ _ Hs R).
    eexists. split; [reflexivity|]. split; reflexivity.
  - destruct (Hn 0) as (job0 & R0 & T0); [lia|]. rewrite Nat.add_0_r in R0.
    destruct fuel as [|fuel]; [lia|].
    destruct (IH (S calls) (status job0) fuel e) as (trace & E & Cs & L).
    + lia.
    + exact T0.
    + apply nonterminal_from_S, Hn.
    + rewrite <- R. f_equal. lia.
    + rewrite (poll_loop_step _ _ _ _ Hs R0), E. eexists.
      split; [reflexivity|]. simpl. rewrite Cs. split; [reflexivity|].
      rewrite L at 1. destruct trace as [|ev trace]; [discriminate L|].
      reflexivity.
Qed.

(** While no status is terminal the loop goes on, round after round. *)
Lemma poll_loop_goes_on fuel :
  forall calls s,
    is_terminal s = false ->
    nonterminal_from calls fuel ->
    exists trace,
      poll_loop retrieve fuel calls s = (Polling, trace)
      /\ sleeps trace = repeat 10%Z fuel
      /\ calls_and_sleeps trace = concat (repeat round fuel).
Proof.
  induction fuel as [|fuel IH]; intros calls s Hs Hn.
  - simpl. rewrite Hs. eexists. split; [reflexivity|]. split; reflexivity.
  - destruct (Hn 0) as (job0 & R0 & T0); [lia|]. rewrite Nat.add_0_r in R0.
    destruct (IH (S calls) (status job0) T0) as (trace & E & Sl & Cs).
    + apply nonterminal_from_S, Hn.
    + rewrite (poll_loop_step _ _ _ _ Hs R0), E. eexists.
      split; [reflexivity|]. simpl. rewrite Sl, Cs. split; reflexivity.
Qed.

(** The loop is left with a terminal status only. *)
Lemma poll_loop_finished_terminal fuel :
  forall calls s s' trace,
    poll_loop retrieve fuel calls s = (Finished s', trace) ->
    is_terminal s' = true.
Proof.
  induction fuel as [|fuel IH]; intros calls s s' trace H; simpl in H;
    destruct (is_terminal s) eqn:T; try (injection H as <- _; exact T);
    try discriminate.
  destruct (retrieve calls) as [job|e]; [|discriminate].
  destruct (poll_loop retrieve fuel (S calls) (status job)) as [run tr] eqn:E.
  injection H as -> _. apply (IH _ _ _ _ E).
Qed.

Lemma nonterminal_before_from k :
  nonterminal_before (S k) -> nonterminal_from 1 k.
Proof. intros H j Hj. apply (H (S j)). lia. Qed.

(** C5. The monitoring cell leaves its loop exactly when the status it
    retrieved is ["succeeded"] or ["failed"]. It is left with a terminal
    status only. When the first retrieval already returns one, the body
    of the loop does not run and nothing is slept. When retrieval [k] is
    the first to return one, the loop is left with it after [k] rounds,
    each a sleep of 10 seconds followed by a retrieval. And no number of
    rounds ends the polling: as long as the statuses are not terminal,
    after [fuel] rounds the cell is still polling, having slept [fuel]
    times 10 seconds. *)
Theorem polling_leaves_on_terminal_status :
  (forall s,
      is_terminal s = true <-> s = py "succeeded" \/ s = py "failed")
  /\ (forall fuel s trace,
         monitor retrieve fuel = (Finished s, trace) ->
         is_terminal s = true)
  /\ (forall job,
         retrieve 0 = Returns job -> is_terminal (status job) = true ->
         forall fuel,
           monitor retrieve fuel
           = (Finished (status job), [Retrieve; PrintFinished (status job)])
           /\ sleeps (snd (monitor retrieve fuel)) = [])
  /\ (forall k job,
         nonterminal_before k ->
         retrieve k = Returns job -> is_terminal (status job) = true ->
         forall fuel,
           k <= fuel ->
           exists trace,
             monitor retrieve fuel = (Finished (status job), trace)
             /\ sleeps trace = repeat 10%Z k
             /\ calls_and_sleeps trace
                = Retrieve :: concat (repeat round k))
  /\ (forall fuel,
         nonterminal_before (S fuel) ->
         exists trace,
           monitor retrieve fuel = (Polling, trace)
           /\ sleeps trace = repeat 10%Z fuel
           /\ calls_and_sleeps trace
              = Retrieve :: concat (repeat round fuel)).
Proof.
  assert (First : forall job,
             retrieve 0 = Returns job -> is_terminal (status job) = true ->
             forall fuel,
               monitor retrieve fuel
               = (Finished (status job),
                  [Retrieve; PrintFinished (status job)])).
  { intros job R T fuel. unfold monitor.
    rewrite R, (poll_loop_terminal _ _ _ T). reflexivity. }
  split; [exact is_terminal_iff|]. split; [|split; [|split]].
  - intros fuel s trace H. unfold monitor in H.
    destruct (retrieve 0) as [job|e]; [|discriminate].
    destruct (poll_loop retrieve fuel 1 (status job)) as [run tr] eqn:E.
    injection H as -> _. apply (poll_loop_finished_terminal _ _ _ _ _ E).
  - intros job R T fuel. rewrite (First job R T). split; reflexivity.
  - intros [|k] job Hn R T fuel Hf.
    + rewrite (First job R T). eexists. split; [reflexivity|].
      split; reflexivity.
    + destruct (Hn 0) as (job0 & R0 & T0); [lia|].
      destruct fuel as [|fuel]; [lia|].
      destruct (poll_loop_finishes k 1 (status job0) fuel job)
        as (trace & E & Sl & Cs); try assumption.
      * lia.
      * apply nonterminal_before_from, Hn.
      * unfold monitor. rewrite R0, E. eexists. split; [reflexivity|].
        unfold sleeps, calls_and_sleeps in *. simpl.
        rewrite flat_map_app, filter_app, Sl, Cs. simpl.
        rewrite !app_nil_r. split; reflexivity.
  - intros fuel Hn. destruct (Hn 0) as (job0 & R0 & T0); [lia|].
    destruct (poll_loop_goes_on fuel 1 (status job0) T0)
      as (trace & E & Sl & Cs).
    + apply nonterminal_before_from, Hn.
    + unfold monitor. rewrite R0, E. eexists. split; [reflexivity|].
      rewrite app_nil_r. simpl. rewrite Sl, Cs. split; reflexivity.
Qed.

(** C8. Nothing in the monitoring cell handles a failure of the status
    retrieval. When retrieval [k] raises an exception [e], after
    retrievals that returned statuses that are not terminal, the
    exception leaves the cell: the run is aborted with [e], and the
    failed retrieval is the last thing the cell did (no further
    retrieval, no sleep, nothing printed). *)
Theorem polling_failure_is_fatal (k : nat) (e : Exception) :
  nonterminal_before k ->
  retrieve k = Raises e ->
  forall fuel,
    k <= fuel ->
    exists trace,
      monitor retrieve fuel = (Aborted e, trace)
      /\ calls_and_sleeps trace = Retrieve :: concat (repeat round k)
      /\ trace = removelast trace ++ [Retrieve].
Proof.
  intros Hn R fuel Hf. destruct k as [|k].
  - unfold monitor. rewrite R. eexists. split; [reflexivity|].
    split; reflexivity.
  - destruct (Hn 0) as (job0 & R0 & T0); [lia|].
    destruct fuel as [|fuel]; [lia|].
    destruct (poll_loop_aborts k 1 (status job0) fuel e)
      as (trace & E & Cs & L); try assumption.
    + lia.
    + apply nonterminal_before_from, Hn.
    + unfold monitor. rewrite R0, E. eexists. split; [reflexivity|].
      rewrite app_nil_r. simpl. rewrite Cs. split; [reflexivity|].
      rewrite L at 1. destruct trace as [|ev trace]; [discriminate L|].
      reflexivity.
Qed.

End Polling.

(** The fourth clause of C5 for [succeeding_service]. *)
Lemma polling_leaves_on_terminal_status_witness :
  exists trace,
    monitor succeeding_service 10 = (Finished (py "succeeded"), trace)
    /\ sleeps trace = repeat 10%Z 2
    /\ calls_and_sleeps trace = Retrieve :: concat (repeat round 2).
Proof.
  apply (proj1 (proj2 (proj2 (proj2
           (polling_leaves_on_terminal_status succeeding_service))))
           2 {| status := py "succeeded";
                fine_tuned_model := Some (py "gpt-4o-mini.ft-b044a9d3") |}).
  - intros j Hj. exists {| status := py "running"; fine_tuned_model := None |}.
    destruct j as [|[|j]]; [split; reflexivity | split; reflexivity | lia].
  - reflexivity.
  - reflexivity.
  - lia.
Defined.

(** C5 for [succeeding_service]: two rounds, then the loop is left. *)
Example monitor_succeeding_service :
  fst (monitor succeeding_service 10) = Finished (py "succeeded")
  /\ sleeps (snd (monitor succeeding_service 10)) = [10; 10]%Z
  /\ calls_and_sleeps (snd (monitor succeeding_service 10))
     = [Retrieve; Sleep 10; Retrieve; Sleep 10; Retrieve]
  /\ fst (monitor succeeding_service 1) = Polling.
Proof. repeat split. Qed.

(** C8 for [failing_service]. *)
Lemma polling_failure_is_fatal_witness :
  exists trace,
    monitor failing_service 5
    = (Aborted (RemoteError (py "Connection error.")), trace)
    /\ calls_and_sleeps trace
       = Retrieve :: concat (repeat round 1)
    /\ trace = removelast trace ++ [Retrieve].
Proof.
  apply (polling_failure_is_fatal failing_service 1
           (RemoteError (py "Connection error."))).
  - intros j Hj. assert (j = 0) as -> by lia. eexists.
    split; reflexivity.
  - reflexivity.
  - lia.
Defined.

End FineTuningSpec.

(** ** The evaluation notebook: edge cases and the tables *)

Module EvaluationBehaviour.
Import Evaluation.

Local Abbreviation occurs_at := (PySeq.occurs_at Ascii.eqb).
Local Abbreviation find := (PySeq.find Ascii.eqb).
Local Abbreviation nl := ("010"%char).

(** A string ending with the marker has the empty string after the last marker. *)
Lemma extract_final_answer_trailing_marker (s : str) :
  extract_final_answer (Some (s ++ ANSWER_MARKER)) = Some [].
Proof.
  assert (N : s ++ ANSWER_MARKER <> []) by (destruct s; discriminate).
  rewrite (EvaluationSpec.extract_final_answer_nonempty _ N). f_equal.
  unfold str_split.
  rewrite (PySeqFacts.last_split_after_last Ascii.eqb Ascii.eqb_spec
             ANSWER_MARKER ANSWER_MARKER_nonempty (s ++ ANSWER_MARKER)
             EvaluationSpec.ANSWER_MARKER_border_free (length s)).
  - rewrite skipn_all2; [reflexivity|]. rewrite length_app. lia.
  - apply (PySeqFacts.occurs_at_iff Ascii.eqb Ascii.eqb_spec ANSWER_MARKER
             ANSWER_MARKER_nonempty).
    exists s, []. rewrite app_nil_r. split; reflexivity.
  - intros j Hj. destruct (occurs_at ANSWER_MARKER (s ++ ANSWER_MARKER) j) eqn:O;
      [exfalso|reflexivity].
    apply (PySeqFacts.occurs_at_iff Ascii.eqb Ascii.eqb_spec ANSWER_MARKER
             ANSWER_MARKER_nonempty) in O.
    destruct O as (a & b & E & L).
    apply (f_equal (@length _)) in E. rewrite !length_app in E. lia.
Qed.

(** X1. Cleaning an answer twice. Applied to its own result,
    [extract_final_answer] changes nothing, with one exception: a result
    that is the empty string becomes [None]. That case occurs: an answer
    that ends with the marker has the empty string as its final answer,
    and [None] after a second pass. *)
Theorem extract_final_answer_twice :
  (forall cot_answer,
      extract_final_answer (extract_final_answer cot_answer)
      = match extract_final_answer cot_answer with
        | Some [] => None
        | r => r
        end)
  /\ (forall s : str,
         extract_final_answer (Some (s ++ ANSWER_MARKER)) = Some []
         /\ extract_final_answer
              (extract_final_answer (Some (s ++ ANSWER_MARKER))) = None).
Proof.
  split.
  - intros [s|]; [|reflexivity].
    destruct s as [|c s]; [reflexivity|].
    rewrite EvaluationSpec.extract_final_answer_nonempty by discriminate.
    set (r := PySeq.last_item _).
    assert (F : find ANSWER_MARKER r = None)
      by apply PySeqFacts.last_split_no_sep.
    destruct r as [|d r'] eqn:E; [reflexivity|].
    rewrite EvaluationSpec.extract_final_answer_nonempty by discriminate.
    unfold str_split.
    rewrite (PySeqFacts.split_not_found _ _ _ _ _ F). reflexivity.
  - intros s. rewrite extract_final_answer_trailing_marker.
    split; reflexivity.
Qed.


(** *** [extract_context] *)

Lemma newline_found (s : str) :
  In nl s -> exists i, find NEWLINE s = Some i.
Proof.
  intros H. destruct (find NEWLINE s) as [i|] eqn:F; [exists i; reflexivity|].
  exfalso.
  apply (PySeqFacts.find_None_not_In Ascii.eqb Ascii.eqb_spec NEWLINE
           NEWLINE_nonempty nl s eq_refl F H).
Qed.

(** With a newline in it, a string is its context, a newline and its
    last line. *)
Lemma extract_context_split (s : str) :
  In nl s ->
  extract_context s ++ NEWLINE
    ++ PySeq.last_item (str_split NEWLINE NEWLINE_nonempty s) = s
  /\ ~ In nl (PySeq.last_item (str_split NEWLINE NEWLINE_nonempty s)).
Proof.
  intros H. destruct (newline_found s H) as [i F]. split.
  - unfold extract_context, str_join, str_split.
    rewrite PySeqFacts.join_all_but_last
      by (apply (PySeqFacts.length_split_found _ _ _ _ _ _ F)).
    apply PySeqFacts.join_split.
  - apply (PySeqFacts.find_None_not_In Ascii.eqb Ascii.eqb_spec NEWLINE
             NEWLINE_nonempty nl _ eq_refl).
    apply PySeqFacts.last_split_no_sep.
Qed.

(** A string is cut at its last newline in one way only. *)
Lemma last_newline_unique (a a' b b' : str) :
  a ++ NEWLINE ++ b = a' ++ NEWLINE ++ b' ->
  ~ In nl b -> ~ In nl b' -> a = a' /\ b = b'.
Proof.
  unfold NEWLINE. revert a'.
  induction a as [|c a IH]; intros [|c' a'] E Hb Hb'; simpl in E.
  - injection E as E. split; [reflexivity | exact E].
  - injection E as Ec E. exfalso. apply Hb. rewrite E.
    apply in_or_app. right. left. reflexivity.
  - injection E as Ec E. exfalso. apply Hb'. rewrite <- E.
    apply in_or_app. right. left. reflexivity.
  - injection E as Ec E. destruct (IH a' E Hb Hb') as [Ea Eb].
    subst. split; reflexivity.
Qed.

(** The context of the documents, a newline and a question of one line
    is the documents. *)
Lemma extract_context_of_prompt (docs q : str) :
  ~ In nl q -> extract_context (docs ++ NEWLINE ++ q) = docs.
Proof.
  intros Hq.
  assert (H : In nl (docs ++ NEWLINE ++ q))
    by (apply in_or_app; right; left; reflexivity).
  destruct (extract_context_split _ H) as [E N].
  apply (last_newline_unique _ _ _ _ E N Hq).
Qed.

(** The context is empty when the instruction has no newline after its
    first character, and only then. *)
Lemma extract_context_empty_iff (s : str) :
  extract_context s = [] <-> ~ In nl (tl s).
Proof.
  destruct (in_dec ascii_dec nl s) as [H|H].
  - destruct (extract_context_split s H) as [E N]. split.
    + intros C. rewrite C in E. rewrite <- E. exact N.
    + intros T. destruct s as [|c s]; [destruct H|]. simpl in T.
      destruct H as [H|H]; [|contradiction]. subst c.
      apply (extract_context_of_prompt [] s T).
  - rewrite (EvaluationSpec.extract_context_no_newline s H).
    split; [|reflexivity]. intros _ T. apply H.
    destruct s as [|c s]; [exact T | right; exact T].
Qed.

(** X2. The context is a prefix of the instruction, and a shorter one
    when the instruction is not empty. It is the empty string when the
    instruction has no newline after its first character, and only
    then. *)
Theorem extract_context_proper_prefix (s : str) :
  (exists rest, s = extract_context s ++ rest)
  /\ (s <> [] -> length (extract_context s) < length s)
  /\ (extract_context s = [] <-> ~ In nl (tl s)).
Proof.
  split; [|split; [|apply extract_context_empty_iff]];
    destruct (in_dec ascii_dec nl s) as [H|H].
  - destruct (extract_context_split s H) as [E N].
    eexists. symmetry. exact E.
  - rewrite (EvaluationSpec.extract_context_no_newline s H).
    exists s. reflexivity.
  - destruct (extract_context_split s H) as [E N].
    intros _. rewrite <- E at 2. rewrite !length_app. simpl. lia.
  - rewrite (EvaluationSpec.extract_context_no_newline s H).
    intros N. destruct s; [congruence | simpl; lia].
Qed.

(** *** One inference call *)

Lemma get_model_completions_caught client calls prompt deployment :
  get_model_completions client calls prompt deployment
  = match caught client calls prompt deployment with
    | Some e => (None, [exception_text e])
    | None => (fst (get_model_completions client calls prompt deployment), [])
    end.
Proof.
  unfold get_model_completions, caught, request_of.
  destruct (client calls _) as [response|e]; [|reflexivity].
  cbn [bind]. destruct (choices response); reflexivity.
Qed.

(** X3. What a call returns and prints, case by case. When the client
    raises, the exception is caught: its text is printed and [None] is
    returned. A completion without choices is handled the same way:
    [choices[0]] raises [IndexError], which is caught, its text is
    printed and [None] is returned. When the completion has a choice, the
    content of the first one is returned and nothing is printed. So a
    [None] with nothing printed is a completion whose first choice has
    no content. *)
Theorem get_model_completions_without_choices client calls prompt deployment :
  let result := get_model_completions client calls prompt deployment in
  (forall e,
      client calls (request_of prompt deployment) = Raises e ->
      result = (None, [exception_text e]))
  /\ (forall response,
         client calls (request_of prompt deployment) = Returns response ->
         choices response = [] ->
         result = (None, [py "list index out of range"]))
  /\ (forall response choice others,
         client calls (request_of prompt deployment) = Returns response ->
         choices response = choice :: others ->
         result = (content (message choice), []))
  /\ (fst result = None -> snd result = [] ->
      exists response choice others,
        client calls (request_of prompt deployment) = Returns response
        /\ choices response = choice :: others
        /\ content (message choice) = None).
Proof.
  cbn zeta. split; [|split; [|split]].
  - intros e R. unfold get_model_completions, request_of in *.
    rewrite R. reflexivity.
  - intros response R C. unfold get_model_completions, request_of in *.
    rewrite R. cbn [bind]. rewrite C. reflexivity.
  - intros response choice others R C.
    unfold get_model_completions, request_of in *.
    rewrite R. cbn [bind]. rewrite C. reflexivity.
  - unfold get_model_completions, request_of.
    destruct (client calls _) as [response|e]; cbn [bind];
      [|discriminate].
    destruct (choices response) as [|choice others] eqn:C;
      cbn [index0 bind fst snd]; [discriminate|].
    intros N _. exists response, choice, others.
    split; [reflexivity|]. split; [exact C | exact N].
Qed.

(** *** What a pass over the test set prints *)

Lemma model_responses_prints client deployment test_df :
  forall calls,
    snd (model_responses client deployment calls test_df)
    = failure_lines client deployment (numbered calls test_df).
Proof.
  unfold numbered.
  induction test_df as [|x rest IH]; intros calls; [reflexivity|].
  cbn [model_responses]. specialize (IH (S calls)).
  rewrite (get_model_completions_caught client calls (instruction x) deployment).
  destruct (model_responses client deployment (S calls) rest) as [rs outs].
  cbn [snd] in IH. cbn [length seq combine failure_lines flat_map fst snd].
  unfold failure_lines in IH. rewrite <- IH.
  destruct (caught client calls (instruction x) deployment); reflexivity.
Qed.

Lemma failure_lines_none client deployment test_df :
  forall calls,
    (forall i x, nth_error test_df i = Some x ->
                 caught client (calls + i) (instruction x) deployment = None) ->
    failure_lines client deployment (numbered calls test_df) = [].
Proof.
  unfold numbered, failure_lines.
  induction test_df as [|x rest IH]; intros calls H; [reflexivity|].
  cbn [length seq combine flat_map fst snd].
  pose proof (H 0 x eq_refl) as H0. rewrite Nat.add_0_r in H0. rewrite H0.
  apply IH. intros i y Hy. replace (S calls + i) with (calls + S i) by lia.
  apply H. exact Hy.
Qed.

Lemma run_inference_parts bc fc bd fd test_df :
  run_inference bc fc bd fd test_df
  = (clean_rows test_df (fst (model_responses bc bd 0 test_df))
       (fst (model_responses fc fd 0 test_df)),
     snd (model_responses bc bd 0 test_df)
       ++ snd (model_responses fc fd 0 test_df)).
Proof.
  unfold run_inference.
  destruct (model_responses bc bd 0 test_df).
  destruct (model_responses fc fd 0 test_df). reflexivity.
Qed.

(** X4. What the inference cell prints: the text of each exception
    caught in the pass of the baseline model, in the order of the rows,
    then the same for the fine-tuned model; at most one line for each row
    and model, and nothing when no call fails. *)
Theorem run_inference_prints_caught_exceptions
  (baseline_client finetuned_client : Client)
  (baseline_deployment finetuned_deployment : str)
  (test_df : list TestRow) :
  let printed :=
    snd (run_inference baseline_client finetuned_client
           baseline_deployment finetuned_deployment test_df) in
  printed
  = failure_lines baseline_client baseline_deployment (numbered 0 test_df)
      ++ failure_lines finetuned_client finetuned_deployment
           (numbered 0 test_df)
  /\ length printed <= 2 * length test_df
  /\ ((forall i x, nth_error test_df i = Some x ->
         caught baseline_client i (instruction x) baseline_deployment = None
         /\ caught finetuned_client i (instruction x) finetuned_deployment
            = None) ->
      printed = []).
Proof.
  cbn zeta. rewrite run_inference_parts. cbn [snd].
  rewrite !model_responses_prints. split; [reflexivity|]. split.
  - assert (B : forall client deployment rows,
               length (failure_lines client deployment rows) <= length rows).
    { intros client deployment rows. unfold failure_lines.
      induction rows as [|row rows IH]; [simpl; lia|].
      cbn [flat_map]. rewrite length_app. cbn [length].
      destruct (caught client _ _ deployment); simpl; lia. }
    rewrite length_app.
    pose proof (B baseline_client baseline_deployment (numbered 0 test_df)).
    pose proof (B finetuned_client finetuned_deployment (numbered 0 test_df)).
    assert (L : length (numbered 0 test_df) = length test_df).
    { unfold numbered. rewrite length_combine, length_seq. lia. }
    lia.
  - intros H. rewrite !failure_lines_none; [reflexivity| |];
      intros i x Hx; apply (H i x Hx).
Qed.

(** *** The columns of the two tables *)





(** X6. From an instruction to the [contexts] cell, on any columns of
    the DataFrame. When the cleaning cell gives its rows, for every row
    of the test set the two tables hold the same cell. The cell is the
    empty list when the instruction has no newline after its first
    character, and only then. When the instruction is documents that are
    not empty, a newline and a question of one line, the cell is the list
    with the documents as its one item. *)
Theorem contexts_cell_of_instruction (frame : Frame)
  (baseline_client finetuned_client : Client)
  (baseline_deployment finetuned_deployment : str)
  (test_df : list TestRow) (rows : list CleanRow) (i : nat) (x : TestRow) :
  fst (infer_and_clean frame baseline_client finetuned_client
         baseline_deployment finetuned_deployment test_df)
  = Returns rows ->
  nth_error test_df i = Some x ->
  exists b f,
    nth_error (baseline_df rows) i = Some b
    /\ nth_error (finetuned_df rows) i = Some f
    /\ contexts b = contexts f
    /\ (contexts b = [] <-> ~ In nl (tl (instruction x)))
    /\ (forall docs q,
           instruction x = docs ++ NEWLINE ++ q -> ~ In nl q -> docs <> [] ->
           contexts b = [docs]).
Proof.
  rewrite EvaluationSpec.infer_and_clean_parts. cbn [fst].
  rewrite EvaluationSpec.clean_cases.
  set (bs := fst (model_responses baseline_client _ 0 test_df)).
  set (fs := fst (model_responses finetuned_client _ 0 test_df)).
  destruct (_ || _ || _); [discriminate|]. intros [= <-] H.
  destruct (EvaluationSpec.model_responses_nth baseline_client
              baseline_deployment test_df 0) as [Lb Nb].
  destruct (EvaluationSpec.model_responses_nth finetuned_client
              finetuned_deployment test_df 0) as [Lf Nf].
  fold bs in Lb, Nb. fold fs in Lf, Nf.
  destruct (EvaluationSpec.clean_rows_nth test_df bs fs Lb Lf) as [_ N].
  specialize (N i x _ _ H (Nb i x H) (Nf i x H)).
  unfold baseline_df, finetuned_df. rewrite !nth_error_map, N. cbn [option_map].
  eexists. eexists. split; [reflexivity|]. split; [reflexivity|].
  cbn [contexts clean_row context]. split; [reflexivity|]. split.
  - rewrite <- (extract_context_empty_iff (instruction x)).
    destruct (extract_context (instruction x)); simpl; split; congruence.
  - intros docs q E Hq Hd. rewrite E, extract_context_of_prompt by exact Hq.
    destruct docs; [congruence | reflexivity].
Qed.

(** The second row of [three_rows], on columns that hold a missing
    value as [nan], with two models that answer every row. *)
Lemma contexts_cell_of_instruction_witness :
  exists b f,
    nth_error
      (baseline_df
         (clean_rows three_rows
            (repeat (Some (py "yes")) 3) (repeat (Some (py "no")) 3))) 1
    = Some b
    /\ nth_error
         (finetuned_df
            (clean_rows three_rows
               (repeat (Some (py "yes")) 3) (repeat (Some (py "no")) 3))) 1
       = Some f
    /\ contexts b = contexts f
    /\ (contexts b = []
        <-> ~ In nl (tl (py "doc" ++ NEWLINE ++ py "Q2?")))
    /\ (forall docs q,
           py "doc" ++ NEWLINE ++ py "Q2?" = docs ++ NEWLINE ++ q ->
           ~ In nl q -> docs <> [] -> contexts b = [docs]).
Proof.
  apply (contexts_cell_of_instruction str_columns
           (constant_client (py "yes")) (constant_client (py "no"))
           (py "gpt-4o-mini") (py "gpt-4o-mini-ft-raft-banking")
           three_rows
           (clean_rows three_rows
              (repeat (Some (py "yes")) 3) (repeat (Some (py "no")) 3))
           1
           {| instruction := py "doc" ++ NEWLINE ++ py "Q2?";
              cot_answer := Some (py "<ANSWER>: yes");
              question := py "Q2?" |}).
  - reflexivity.
  - reflexivity.
Defined.

(** A model that returns completions without choices: every response is
    [None] and every row prints the text of the [IndexError]. *)
Example inference_without_choices :
  model_responses choiceless_client (py "gpt-4o-mini") 0 three_rows
  = ([None; None; None],
     [py "list index out of range"; py "list index out of range";
      py "list index out of range"]).
Proof. reflexivity. Qed.

End EvaluationBehaviour.

(** ** The deployment cell: the resource name *)

Module DeploymentSpec.
Import Deployment.

Local Abbreviation find := (PySeq.find Ascii.eqb).
Local Abbreviation dot := ("."%char).
Local Abbreviation colon := (":"%char).

(** The first item of a split: the text before the first separator, or
    the whole string. *)
Lemma split_head (sep : str) (sep_nonempty : sep <> []) (s : str) :
  exists rest,
    str_split sep sep_nonempty s
    = match find sep s with Some i => firstn i s | None => s end :: rest.
Proof.
  unfold str_split. destruct (find sep s) as [i|] eqn:F.
  - rewrite (PySeqFacts.split_found _ _ _ _ _ _ F). eexists. reflexivity.
  - rewrite (PySeqFacts.split_not_found _ _ _ _ _ F). eexists. reflexivity.
Qed.

Lemma split_head_prefix (sep : str) (sep_nonempty : sep <> []) (s : str) :
  exists p rest after,
    str_split sep sep_nonempty s = p :: rest /\ s = p ++ after
    /\ find sep p = None.
Proof.
  destruct (split_head sep sep_nonempty s) as [rest E].
  pose proof (PySeqFacts.split_pieces_no_sep Ascii.eqb Ascii.eqb_spec sep
                sep_nonempty s) as P.
  fold (str_split sep sep_nonempty s) in P. rewrite E in P.
  apply Forall_inv in P.
  destruct (find sep s) as [i|].
  - exists (firstn i s), rest, (skipn i s).
    split; [exact E|]. split; [symmetry; apply firstn_skipn | exact P].
  - exists s, rest, []. split; [exact E|].
    split; [symmetry; apply app_nil_r | exact P].
Qed.

(** [s.split(sep)[1]]: there is none without the separator, and with it,
    it is the first item of the split of what follows the first
    occurrence. *)
Lemma split_second (sep : str) (sep_nonempty : sep <> []) (s : str) :
  index (str_split sep sep_nonempty s) 1
  = match find sep s with
    | Some i => index (str_split sep sep_nonempty (skipn (i + length sep) s)) 0
    | None => Raises (IndexError (py "list index out of range"))
    end.
Proof.
  unfold str_split. destruct (find sep s) as [i|] eqn:F.
  - rewrite (PySeqFacts.split_found _ _ _ _ _ _ F). reflexivity.
  - rewrite (PySeqFacts.split_not_found _ _ _ _ _ F). reflexivity.
Qed.

Lemma find_startswith (sep s : str) :
  PySeq.startswith Ascii.eqb s sep = true -> find sep s = Some 0.
Proof. intros H. destruct s; simpl; rewrite H; reflexivity. Qed.

(** The scheme does not start inside a name without a colon, nor on the
    dot that follows the name. *)
Lemma scheme_after_name (name rest : str) :
  ~ In colon name ->
  forall a b,
    name ++ DOT ++ rest = a ++ SCHEME ++ b -> length name < length a.
Proof.
  induction name as [|c name IH]; intros Hc [|x a] b E.
  - discriminate E.
  - simpl. lia.
  - exfalso. unfold SCHEME, DOT, py in E. simpl in E.
    injection E as -> E.
    do 4 (destruct name as [|? name]; [discriminate E|];
          simpl in E; injection E as -> E).
    destruct name as [|? name]; [discriminate E|].
    simpl in E; injection E as -> E.
    apply Hc. simpl. tauto.
  - simpl in E. injection E as -> E. simpl.
    pose proof (IH (fun H => Hc (or_intror H)) a b E). lia.
Qed.

(** X7. The resource name of an endpoint. For an endpoint that is
    ["https://"], a name without a dot or a colon, a dot and any text,
    [resource_name] is that name. *)
Theorem resource_name_of_endpoint (name rest : str) :
  ~ In dot name -> ~ In colon name ->
  resource_name (SCHEME ++ name ++ DOT ++ rest) = Returns name.
Proof.
  intros Hd Hc. unfold resource_name.
  rewrite split_second.
  rewrite (find_startswith SCHEME (SCHEME ++ name ++ DOT ++ rest))
    by apply (PySeqFacts.startswith_app Ascii.eqb Ascii.eqb_spec).
  change (skipn (0 + length SCHEME) (SCHEME ++ name ++ DOT ++ rest))
    with (name ++ DOT ++ rest).
  destruct (split_head SCHEME SCHEME_nonempty (name ++ DOT ++ rest))
    as [others E].
  rewrite E. cbn [index nth_error bind].
  assert (H : exists rest',
             match find SCHEME (name ++ DOT ++ rest) with
             | Some i => firstn i (name ++ DOT ++ rest)
             | None => name ++ DOT ++ rest
             end = name ++ DOT ++ rest').
  { destruct (find SCHEME (name ++ DOT ++ rest)) as [i|] eqn:F;
      [|exists rest; reflexivity].
    apply PySeq.find_Some in F as [O _].
    apply (PySeqFacts.occurs_at_iff Ascii.eqb Ascii.eqb_spec SCHEME
             SCHEME_nonempty) in O.
    destruct O as (a & b & Eab & La).
    pose proof (scheme_after_name name rest Hc a b Eab) as L.
    exists (firstn (i - length name - 1) rest).
    rewrite firstn_app.
    rewrite (firstn_all2 (n := i) name) by lia.
    f_equal. rewrite firstn_app. unfold DOT, py. simpl length.
    replace (i - length name) with (S (i - length name - 1)) at 1 by lia.
    cbn [list_ascii_of_string firstn]. rewrite firstn_nil. reflexivity. }
  destruct H as [rest' ->].
  destruct (split_head DOT DOT_nonempty (name ++ DOT ++ rest')) as [others' E'].
  rewrite E'. cbn [nth_error].
  change (DOT ++ rest') with (dot :: rest').
  rewrite (PySeqFacts.find_char_Some Ascii.eqb Ascii.eqb_spec DOT dot name
             rest' eq_refl Hd).
  rewrite firstn_app, Nat.sub_diag, firstn_all. simpl. rewrite app_nil_r.
  reflexivity.
Qed.

(** The expression on a string: it raises [IndexError] when the scheme
    does not occur, and only then; a name it returns has no dot and
    follows an occurrence of the scheme. *)
Lemma resource_name_on_strings (aoai_endpoint : str) :
  (resource_name aoai_endpoint
   = Raises (IndexError (py "list index out of range"))
   <-> forall a b, aoai_endpoint <> a ++ SCHEME ++ b)
  /\ (forall e, resource_name aoai_endpoint = Raises e ->
                e = IndexError (py "list index out of range"))
  /\ (forall name,
         resource_name aoai_endpoint = Returns name ->
         ~ In dot name
         /\ exists a b, aoai_endpoint = a ++ SCHEME ++ name ++ b).
Proof.
  unfold resource_name. rewrite split_second.
  destruct (find SCHEME aoai_endpoint) as [i|] eqn:F.
  - pose proof (PySeqFacts.find_split Ascii.eqb Ascii.eqb_spec SCHEME
                  aoai_endpoint i F) as Es.
    set (t := skipn (i + length SCHEME) aoai_endpoint) in *.
    destruct (split_head_prefix SCHEME SCHEME_nonempty t)
      as (p & others & after & Ep & Et & _).
    rewrite Ep. cbn [index nth_error bind].
    destruct (split_head_prefix DOT DOT_nonempty p)
      as (name & others' & after' & En & Ename & Fn).
    rewrite En. cbn [nth_error].
    split; [|split].
    + split; [discriminate|]. intros H. exfalso.
      apply (H (firstn i aoai_endpoint) t). exact Es.
    + discriminate.
    + intros name' [= <-]. split.
      * apply (PySeqFacts.find_None_not_In Ascii.eqb Ascii.eqb_spec DOT
                 DOT_nonempty dot name eq_refl Fn).
      * exists (firstn i aoai_endpoint), (after' ++ after).
        rewrite Es at 1. rewrite Et, Ename, <- !app_assoc. reflexivity.
  - cbn [bind]. split; [|split].
    + split; [|reflexivity]. intros _.
      apply (EvaluationSpec.find_no_occurrence SCHEME aoai_endpoint
               SCHEME_nonempty F).
    + intros e [= <-]. reflexivity.
    + discriminate.
Qed.

(** X8. An endpoint that is not set, or without ["https://"]. The
    endpoint is what [os.getenv] gives. When the variable is not set the
    expression raises [AttributeError], and only then. When the endpoint
    is a string in which ["https://"] does not occur, it raises
    [IndexError], and only then. It raises nothing else. A name it
    returns has no dot and stands in the endpoint right after an
    occurrence of ["https://"]. *)
Theorem resource_name_needs_scheme (aoai_endpoint : option str) :
  (resource_name_of_env aoai_endpoint
   = Raises (AttributeError (py "'NoneType' object has no attribute 'split'"))
   <-> aoai_endpoint = None)
  /\ (resource_name_of_env aoai_endpoint
      = Raises (IndexError (py "list index out of range"))
      <-> exists endpoint,
          aoai_endpoint = Some endpoint
          /\ forall a b, endpoint <> a ++ SCHEME ++ b)
  /\ (forall e,
         resource_name_of_env aoai_endpoint = Raises e ->
         e = AttributeError (py "'NoneType' object has no attribute 'split'")
         \/ e = IndexError (py "list index out of range"))
  /\ (forall name,
         resource_name_of_env aoai_endpoint = Returns name ->
         ~ In dot name
         /\ exists endpoint a b,
             aoai_endpoint = Some endpoint
             /\ endpoint = a ++ SCHEME ++ name ++ b).
Proof.
  destruct aoai_endpoint as [endpoint|]; cbn [resource_name_of_env].
  - destruct (resource_name_on_strings endpoint) as (I & E & N).
    split; [|split; [|split]].
    + split; [|discriminate]. intros H. apply E in H. discriminate H.
    + rewrite I. split.
      * intros H. exists endpoint. split; [reflexivity | exact H].
      * intros (endpoint' & [= <-] & H). exact H.
    + intros e H. right. apply E, H.
    + intros name H. destruct (N name H) as (D & a & b & Eab).
      split; [exact D|]. exists endpoint, a, b.
      split; [reflexivity | exact Eab].
  - split; [|split; [|split]].
    + split; reflexivity.
    + split; [discriminate|]. intros (endpoint & H & _). discriminate H.
    + intros e [= <-]. left. reflexivity.
    + discriminate.
Qed.

Lemma resource_name_of_endpoint_witness :
  resource_name (SCHEME ++ py "my-aoai" ++ DOT ++ py "openai.azure.com/")
  = Returns (py "my-aoai").
Proof.
  apply (resource_name_of_endpoint (py "my-aoai") (py "openai.azure.com/")).
  - unfold py. simpl. intuition discriminate.
  - unfold py. simpl. intuition discriminate.
Defined.

End DeploymentSpec.

(** ** The fine-tuning notebook: more on the token count *)

Module TokenCountSpec.
Import FineTuning.

Section AnyTokenizer.

Context {Token : Type}.
Variable encode : str -> list Token.

Local Abbreviation value_tokens := (FineTuning.value_tokens encode).
Local Abbreviation encoded_tokens := (FineTuning.encoded_tokens encode).
Local Abbreviation num_tokens_from_messages :=
  (FineTuning.num_tokens_from_messages encode).
Local Abbreviation num_tokens_of_conversation :=
  (FineTuning.num_tokens_of_conversation encode).
Local Abbreviation training_tokens := (FineTuning.training_tokens encode).

Open Scope Z_scope.

(** The count as a sum. *)
Lemma num_tokens_sum (messages : list Message) tokens_per_message
  tokens_per_name :
  num_tokens_from_messages messages tokens_per_message tokens_per_name
  = tokens_per_message * Z.of_nat (length messages)
    + encoded_tokens messages
    + tokens_per_name * role_fields_of messages + 3.
Proof.
  unfold FineTuning.num_tokens_from_messages.
  rewrite FineTuningSpec.count_messages. lia.
Qed.

Lemma value_tokens_nonneg (message : Message) : 0 <= value_tokens message.
Proof. induction message as [|item rest IH]; simpl; lia. Qed.

Lemma encoded_tokens_nonneg (messages : list Message) :
  0 <= encoded_tokens messages.
Proof.
  induction messages as [|m rest IH]; simpl; [lia|].
  pose proof (value_tokens_nonneg m). lia.
Qed.

Lemma role_fields_of_nonneg (messages : list Message) :
  0 <= role_fields_of messages.
Proof.
  induction messages as [|m rest IH]; simpl; [lia|].
  unfold role_fields. lia.
Qed.

Lemma value_tokens_permutation (m m' : Message) :
  Permutation m m' -> value_tokens m = value_tokens m'.
Proof. induction 1; simpl; lia. Qed.

Lemma role_fields_permutation (m m' : Message) :
  Permutation m m' -> role_fields m = role_fields m'.
Proof.
  unfold role_fields. intros H. f_equal.
  induction H as [|[k v] l l' H IH|[k v] [k' v'] l|l l' l'' H IH H' IH'];
    simpl.
  - reflexivity.
  - destruct (str_eqb k (py "role")); simpl; lia.
  - destruct (str_eqb k (py "role")), (str_eqb k' (py "role")); reflexivity.
  - lia.
Qed.

Lemma encoded_tokens_permutation (ms ms' : list Message) :
  Permutation ms ms' -> encoded_tokens ms = encoded_tokens ms'.
Proof. induction 1; simpl; lia. Qed.

Lemma role_fields_of_permutation (ms ms' : list Message) :
  Permutation ms ms' -> role_fields_of ms = role_fields_of ms'.
Proof. induction 1; simpl; lia. Qed.

Lemma encoded_tokens_app (ms ms' : list Message) :
  encoded_tokens (ms ++ ms') = encoded_tokens ms + encoded_tokens ms'.
Proof. induction ms as [|m ms IH]; simpl; lia. Qed.

Lemma role_fields_of_app (ms ms' : list Message) :
  role_fields_of (ms ++ ms') = role_fields_of ms + role_fields_of ms'.
Proof. induction ms as [|m ms IH]; simpl; lia. Qed.

(** X9. The token count of a conversation does not depend on the order
    of its messages, nor on the order of the fields of a message. *)
Theorem num_tokens_order_independent tokens_per_message tokens_per_name :
  (forall messages messages' : list Message,
      Permutation messages messages' ->
      num_tokens_from_messages messages tokens_per_message tokens_per_name
      = num_tokens_from_messages messages' tokens_per_message tokens_per_name)
  /\ (forall messages messages' : list Message,
         Forall2 (@Permutation (str * str)) messages messages' ->
         num_tokens_from_messages messages tokens_per_message tokens_per_name
         = num_tokens_from_messages messages' tokens_per_message
             tokens_per_name).
Proof.
  split; intros messages messages' H; rewrite !num_tokens_sum.
  - rewrite (Permutation_length H), (encoded_tokens_permutation _ _ H),
      (role_fields_of_permutation _ _ H). reflexivity.
  - assert (S : length messages = length messages'
                 /\ encoded_tokens messages = encoded_tokens messages'
                 /\ role_fields_of messages = role_fields_of messages').
    { induction H as [|m m' ms ms' P _ (L & E & R)].
      - repeat split.
      - simpl. rewrite L, E, R, (value_tokens_permutation _ _ P),
          (role_fields_permutation _ _ P). repeat split. }
    destruct S as (L & E & R).
    rewrite L, E, R. reflexivity.
Qed.

(** X10. The token count of two conversations put together is the sum
    of their counts less 3, the suffix counted once. The empty
    conversation counts 3 tokens, and a conversation at least 3 tokens
    for each message and 3 more. *)
Theorem num_tokens_of_concatenation (messages messages' : list Message)
  tokens_per_message tokens_per_name :
  num_tokens_from_messages (messages ++ messages') tokens_per_message
    tokens_per_name
  = num_tokens_from_messages messages tokens_per_message tokens_per_name
    + num_tokens_from_messages messages' tokens_per_message tokens_per_name
    - 3
  /\ num_tokens_from_messages [] tokens_per_message tokens_per_name = 3
  /\ 3 * Z.of_nat (length messages) + 3
     <= num_tokens_of_conversation messages.
Proof.
  split; [|split].
  - rewrite !num_tokens_sum, length_app, encoded_tokens_app,
      role_fields_of_app, Nat2Z.inj_add. lia.
  - reflexivity.
  - unfold FineTuning.num_tokens_of_conversation. rewrite num_tokens_sum.
    pose proof (encoded_tokens_nonneg messages).
    pose proof (role_fields_of_nonneg messages). lia.
Qed.

(** *** The training file *)

Lemma training_tokens_from (dataset : list (list Message)) :
  forall num_tokens,
    fold_left
      (fun num_tokens message =>
         num_tokens + num_tokens_of_conversation message)
      dataset num_tokens
    = num_tokens + training_tokens dataset.
Proof.
  unfold FineTuning.training_tokens.
  induction dataset as [|c rest IH]; intros num_tokens; simpl; [lia|].
  rewrite IH, (IH (num_tokens_of_conversation c)). lia.
Qed.

Lemma training_tokens_cons (c : list Message) (rest : list (list Message)) :
  training_tokens (c :: rest)
  = num_tokens_of_conversation c + training_tokens rest.
Proof.
  unfold FineTuning.training_tokens at 1. simpl.
  apply training_tokens_from.
Qed.

(** X11. The tokens of the training file are the sum of the counts of
    its conversations: the total of two files put together is the sum of
    their totals, and it is at least 3 tokens for each conversation and 3
    for each message. *)
Theorem training_tokens_of_files (dataset dataset' : list (list Message)) :
  training_tokens (dataset ++ dataset')
  = training_tokens dataset + training_tokens dataset'
  /\ training_tokens dataset
     = fold_right (fun c n => num_tokens_of_conversation c + n) 0 dataset
  /\ 3 * Z.of_nat (length dataset)
       + 3 * Z.of_nat (length (concat dataset))
     <= training_tokens dataset.
Proof.
  split; [|split].
  - induction dataset as [|c rest IH]; [reflexivity|].
    rewrite <- app_comm_cons, !training_tokens_cons, IH. lia.
  - induction dataset as [|c rest IH]; [reflexivity|].
    rewrite training_tokens_cons, IH. reflexivity.
  - induction dataset as [|c rest IH]; [reflexivity|].
    rewrite training_tokens_cons. cbn [concat length].
    rewrite length_app, Nat2Z.inj_succ, Nat2Z.inj_add.
    unfold FineTuning.num_tokens_of_conversation. rewrite num_tokens_sum.
    pose proof (encoded_tokens_nonneg c).
    pose proof (role_fields_of_nonneg c). lia.
Qed.

End AnyTokenizer.

(** *** Lines without a conversation, and a tokenizer that can raise *)

Section RaisingTokenizer.

Context {Token : Type}.

Local Open Scope Z_scope.

Lemma for_each_app {X S : Type} (body : S -> X -> Outcome S)
  (l l' : list X) :
  forall s,
    for_each body (l ++ l') s
    = (s' <- for_each body l s ;; for_each body l' s').
Proof.
  induction l as [|x l IH]; intros s; [reflexivity|].
  cbn [app for_each]. destruct (body s x) as [s'|e]; [|reflexivity].
  cbn [bind]. apply IH.
Qed.

(** With a tokenizer that raises nothing the loops are the folds of
    [num_tokens_from_messages]. *)
Lemma count_items_total (enc : str -> list Token) tokens_per_name
  (message : Message) :
  forall num_tokens,
    for_each (count_item_or_raise (fun s => Returns (enc s)) tokens_per_name)
      message num_tokens
    = Returns (fold_left (count_item enc tokens_per_name) message num_tokens).
Proof.
  induction message as [|[key value] rest IH]; intros num_tokens;
    [reflexivity|].
  cbn [for_each fold_left count_item_or_raise bind]. apply IH.
Qed.

Lemma count_messages_total (enc : str -> list Token) tokens_per_message
  tokens_per_name (messages : list Message) :
  forall num_tokens,
    for_each
      (count_message_or_raise (fun s => Returns (enc s)) tokens_per_message
         tokens_per_name)
      messages num_tokens
    = Returns
        (fold_left (count_message enc tokens_per_message tokens_per_name)
           messages num_tokens).
Proof.
  induction messages as [|m rest IH]; intros num_tokens; [reflexivity|].
  cbn [for_each fold_left]. unfold count_message_or_raise at 1.
  rewrite count_items_total. cbn [bind]. apply IH.
Qed.

Lemma count_lines_total (enc : str -> list Token)
  (dataset : list (list Message)) :
  forall num_tokens,
    count_lines (fun s => Returns (enc s)) (map Some dataset) num_tokens
    = Returns (num_tokens + training_tokens enc dataset).
Proof.
  unfold count_lines.
  induction dataset as [|c rest IH]; intros num_tokens.
  - cbn. f_equal. lia.
  - cbn [map for_each num_tokens_from_line]. rewrite count_messages_total.
    cbn [bind]. rewrite IH, training_tokens_cons. f_equal.
    unfold num_tokens_of_conversation, num_tokens_from_messages. lia.
Qed.

Variable encode : str -> Outcome (list Token).

(** X12. A line of the training file without a ["messages"] key stops
    the count. With a tokenizer that raises nothing and a conversation
    on every line, the loop gives the total of the conversations. The
    loop is left at the first line that raises: what comes after that
    line plays no part. A line without a conversation raises [TypeError]
    when the lines before it have been counted, and otherwise the
    exception of the lines before it stands. So a total is only given
    for a file whose every line has a conversation. *)
Theorem count_lines_needs_every_conversation :
  (forall (enc : str -> list Token) (dataset : list (list Message)),
      count_lines (fun s => Returns (enc s)) (map Some dataset) 0
      = Returns (training_tokens enc dataset))
  /\ (forall (before after : list Line) num_tokens,
         count_lines encode (before ++ None :: after) num_tokens
         = (counted <- count_lines encode before num_tokens ;;
            Raises (TypeError (py "'NoneType' object is not iterable"))))
  /\ (forall (before after : list Line) num_tokens e,
         count_lines encode before num_tokens = Raises e ->
         count_lines encode (before ++ after) num_tokens = Raises e)
  /\ (forall (lines : list Line) num_tokens total,
         count_lines encode lines num_tokens = Returns total ->
         exists dataset, lines = map Some dataset).
Proof.
  split; [|split; [|split]].
  - intros enc dataset. rewrite count_lines_total. reflexivity.
  - intros before after num_tokens. unfold count_lines.
    rewrite for_each_app. reflexivity.
  - intros before after num_tokens e H. unfold count_lines in *.
    rewrite for_each_app, H. reflexivity.
  - unfold count_lines.
    induction lines as [|[c|] rest IH]; intros num_tokens total H.
    + exists []. reflexivity.
    + cbn [for_each] in H.
      destruct (num_tokens_from_line encode (Some c) 3 1) as [count|e];
        [|discriminate H].
      cbn [bind] in H. destruct (IH _ _ H) as [dataset E].
      exists (c :: dataset). rewrite E. reflexivity.
    + discriminate H.
Qed.

End RaisingTokenizer.

End TokenCountSpec.

(** ** The fine-tuning notebook: the estimate as a number *)

Module CostEstimateSpec.
Import PyFloat FineTuning.
Local Open Scope Z_scope.

Local Abbreviation bra := (binary_round_aux prec emax).

Lemma digits2_pos_mul_le (a b : positive) :
  Z.pos (digits2_pos (a * b))
  <= Z.pos (digits2_pos a) + Z.pos (digits2_pos b).
Proof.
  pose proof (PyFloatFacts.digits2_pos_bounds a) as Ba.
  pose proof (PyFloatFacts.digits2_pos_bounds b) as Bb.
  pose proof (PyFloatFacts.digits2_pos_bounds (a * b)) as Bab.
  rewrite Pos2Z.inj_mul in Bab.
  assert (U : Z.pos a * Z.pos b
              < 2 ^ (Z.pos (digits2_pos a) + Z.pos (digits2_pos b))).
  { rewrite Z.pow_add_r by lia. apply Z.mul_lt_mono_nonneg; lia. }
  assert (L : 2 ^ (Z.pos (digits2_pos (a * b)) - 1)
              < 2 ^ (Z.pos (digits2_pos a) + Z.pos (digits2_pos b))) by lia.
  apply Z.pow_lt_mono_r_iff in L; lia.
Qed.

(** Rounding a mantissa of at least 53 digits gives a normal number
    when the exponent stays in range. *)
Lemma bra_finite (s : bool) (M : positive) (E hi : Z) :
  53 <= Z.pos (digits2_pos M) -> -1074 <= E ->
  E + Z.pos (digits2_pos M) - 52 <= hi -> hi <= 971 ->
  exists m e,
    bra s (Z.pos M) E loc_Exact = S754_finite s m e
    /\ Z.pos (digits2_pos m) = 53 /\ E <= e <= hi.
Proof.
  intros D HE Hhi H971.
  destruct (PyFloatFacts.bra_normal s M E D HE) as (m & e & Dm & Le & R).
  specialize (R 0 ltac:(lia)). rewrite !Z.add_0_r in R.
  assert (C : (e <=? 971) = true) by lia. rewrite C in R.
  exists m, e. split; [exact R|]. split; [exact Dm | lia].
Qed.

(** The float of a positive integer below [2 ^ 63]. *)
Lemma round_int_positive (N : positive) :
  Z.pos N < 2 ^ 63 ->
  exists m e,
    round_int (Z.pos N) = S754_finite false m e
    /\ Z.pos (digits2_pos m) = 53 /\ -52 <= e <= 11.
Proof.
  intros HN. unfold round_int, binary_normalize, binary_round, shl_align,
    fexp, SpecFloat.emin, prec, emax.
  pose proof (PyFloatFacts.digits2_pos_bounds N) as B.
  assert (D : Z.pos (digits2_pos N) <= 63).
  { destruct (Z.le_gt_cases (Z.pos (digits2_pos N)) 63) as [L|L];
      [exact L|exfalso].
    assert (2 ^ 63 <= 2 ^ (Z.pos (digits2_pos N) - 1))
      by (apply Z.pow_le_mono_r; lia). lia. }
  assert (1 <= Z.pos (digits2_pos N)) by lia.
  replace (Z.max (Z.pos (digits2_pos N) + 0 - 53) (3 - 1024 - 53) - 0)
    with (Z.pos (digits2_pos N) - 53) by lia.
  replace (Z.max (Z.pos (digits2_pos N) + 0 - 53) (3 - 1024 - 53))
    with (Z.pos (digits2_pos N) - 53) by lia.
  assert (G : forall M E,
             53 <= Z.pos (digits2_pos M) -> -52 <= E ->
             E + Z.pos (digits2_pos M) - 52 <= 11 ->
             exists m e,
               bra false (Z.pos M) E loc_Exact = S754_finite false m e
               /\ Z.pos (digits2_pos m) = 53 /\ -52 <= e <= 11).
  { intros M E DM HE HU.
    destruct (bra_finite false M E 11 DM ltac:(lia) HU ltac:(lia))
      as (m & e & R & Dm & Be).
    exists m, e. split; [exact R|]. split; [exact Dm | lia]. }
  destruct (Z.pos (digits2_pos N) - 53) as [|k|k] eqn:E.
  - apply G; lia.
  - apply G; lia.
  - apply G; rewrite ?PyFloatFacts.digits2_pos_shift; lia.
Qed.

(** The product of two normal numbers is normal when the exponents stay
    in range, and has the sign of the signs. *)
Lemma mul_finite s1 m1 e1 s2 m2 e2 :
  Z.pos (digits2_pos m1) = 53 -> Z.pos (digits2_pos m2) = 53 ->
  -1074 <= e1 + e2 -> e1 + e2 + 54 <= 971 ->
  exists m e,
    mul (S754_finite s1 m1 e1) (S754_finite s2 m2 e2)
    = S754_finite (xorb s1 s2) m e
    /\ Z.pos (digits2_pos m) = 53 /\ e1 + e2 <= e <= e1 + e2 + 54.
Proof.
  intros D1 D2 Lo Hi. unfold mul, SFmul.
  fold (bra (xorb s1 s2) (Z.pos (m1 * m2)) (e1 + e2) loc_Exact).
  pose proof (PyFloatFacts.digits2_pos_mul_ge m1 m2).
  pose proof (digits2_pos_mul_le m1 m2).
  apply bra_finite; lia.
Qed.

Lemma total_cost_products num_tokens num_epochs :
  total_cost num_tokens num_epochs
  = (tokens <- of_int num_tokens ;;
     epochs <- of_int num_epochs ;;
     Returns (mul (mul tokens PRICE_PER_TOKEN) epochs)).
Proof.
  unfold total_cost. rewrite FineTuningSpec.training_cost_per_token_value.
  cbn [bind]. unfold int_mul_float, float_mul_int.
  destruct (of_int num_tokens); reflexivity.
Qed.

(** [float(n)] for a count below [2 ^ 63]. *)
Lemma of_int_count (n : Z) :
  0 <= n < 2 ^ 63 ->
  (n = 0 /\ of_int n = Returns (S754_zero false))
  \/ (0 < n /\ exists m e,
         of_int n = Returns (S754_finite false m e)
         /\ Z.pos (digits2_pos m) = 53 /\ -52 <= e <= 11).
Proof.
  intros [L U]. destruct n as [|N|N]; [left | right | lia].
  - split; reflexivity.
  - split; [lia|].
    destruct (round_int_positive N U) as (m & e & R & D & B).
    exists m, e. unfold of_int. rewrite R. repeat split; tauto.
Qed.

(** X13. The estimate is a number. For a token count and a number of
    epochs from 0 to below [2 ^ 63], [total_cost] raises nothing and
    gives a float that is [0.0] or a positive normal number, never an
    infinity or a NaN: it is positive when both inputs are, and [0.0]
    when one of them is 0. *)
Theorem total_cost_is_a_nonnegative_number (num_tokens num_epochs : Z) :
  0 <= num_tokens < 2 ^ 63 -> 0 <= num_epochs < 2 ^ 63 ->
  exists estimate,
    total_cost num_tokens num_epochs = Returns estimate
    /\ nonnegative_number estimate
    /\ (0 < num_tokens -> 0 < num_epochs -> positive_number estimate)
    /\ (num_tokens = 0 \/ num_epochs = 0 -> estimate = S754_zero false).
Proof.
  intros Ht He. rewrite total_cost_products.
  destruct (of_int_count num_tokens Ht)
    as [[Zt ->]|[Pt (mt & et & -> & Dt & Bt)]];
    destruct (of_int_count num_epochs He)
      as [[Ze ->]|[Pe (me & ee & -> & De & Be)]];
    cbn [bind].
  - eexists. split; [reflexivity|]. cbn. repeat split; try lia; tauto.
  - eexists. split; [reflexivity|]. cbn. repeat split; try lia; tauto.
  - unfold PRICE_PER_TOKEN.
    destruct (mul_finite false mt et false 7791904696734915 (-71) Dt eq_refl
                ltac:(lia) ltac:(lia)) as (m & e & -> & Dm & Bm).
    eexists. split; [reflexivity|]. cbn. repeat split; try lia; tauto.
  - unfold PRICE_PER_TOKEN.
    destruct (mul_finite false mt et false 7791904696734915 (-71) Dt eq_refl
                ltac:(lia) ltac:(lia)) as (m & e & -> & Dm & Bm).
    cbn [xorb].
    destruct (mul_finite false m e false me ee Dm De ltac:(lia) ltac:(lia))
      as (m' & e' & -> & Dm' & Bm').
    eexists. split; [reflexivity|]. cbn [xorb nonnegative_number positive_number].
    split; [exact Dm'|]. split; [intros _ _; exact Dm'|]. lia.
Qed.

Lemma total_cost_is_a_nonnegative_number_witness :
  exists estimate,
    total_cost 250000 3 = Returns estimate
    /\ nonnegative_number estimate
    /\ (0 < 250000 -> 0 < 3 -> positive_number estimate)
    /\ (250000 = 0 \/ 3 = 0 -> estimate = S754_zero false).
Proof.
  apply (total_cost_is_a_nonnegative_number 250000 3); lia.
Defined.

End CostEstimateSpec.

(** ** The fine-tuning notebook: the monitoring cell for any service *)

Module MonitoringSpec.
Import FineTuning.

Section AnyService.

Variable retrieve : JobService.

Lemma poll_loop_unfold fuel calls s :
  poll_loop retrieve fuel calls s
  = if is_terminal s then (Finished s, [])
    else
      match fuel with
      | O => (Polling, [])
      | S fuel' =>
          match retrieve calls with
          | Raises e => (Aborted e, [Sleep 10; Retrieve])
          | Returns response =>
              (fst (poll_loop retrieve fuel' (S calls) (status response)),
               [Sleep 10; Retrieve; PrintJob response; PrintElapsed;
                PrintStatus (status response); ClearOutput]
                 ++ snd (poll_loop retrieve fuel' (S calls) (status response)))
          end
      end.
Proof.
  destruct fuel as [|fuel']; cbn [poll_loop]; [reflexivity|].
  destruct (is_terminal s); [reflexivity|].
  destruct (retrieve calls) as [response|e]; [|reflexivity].
  destruct (poll_loop retrieve fuel' (S calls) (status response)).
  reflexivity.
Qed.

Lemma monitor_unfold fuel :
  monitor retrieve fuel
  = match retrieve 0 with
    | Raises e => (Aborted e, [Retrieve])
    | Returns response =>
        (fst (poll_loop retrieve fuel 1 (status response)),
         Retrieve :: snd (poll_loop retrieve fuel 1 (status response)) ++
           match fst (poll_loop retrieve fuel 1 (status response)) with
           | Finished s => [PrintFinished s]
           | _ => []
           end)
    end.
Proof.
  unfold monitor. destruct (retrieve 0) as [response|e]; [|reflexivity].
  destruct (poll_loop retrieve fuel 1 (status response)). reflexivity.
Qed.

(** The rounds of the loop, whatever the service does. *)
Lemma poll_loop_rounds fuel :
  forall calls s,
  exists k,
    k <= fuel
    /\ calls_and_sleeps (snd (poll_loop retrieve fuel calls s))
       = concat (repeat round k)
    /\ sleeps (snd (poll_loop retrieve fuel calls s)) = repeat 10%Z k
    /\ (fst (poll_loop retrieve fuel calls s) = Polling -> k = fuel).
Proof.
  induction fuel as [|fuel IH]; intros calls s; rewrite poll_loop_unfold.
  - exists 0. destruct (is_terminal s); cbn; repeat split; lia.
  - destruct (is_terminal s).
    + exists 0. cbn. repeat split; [lia | discriminate].
    + destruct (retrieve calls) as [response|e].
      * destruct (IH (S calls) (status response)) as (k & Lk & C & Z & P).
        exists (S k). cbn [fst snd].
        split; [lia|]. split; [|split].
        -- cbn [calls_and_sleeps app filter]. unfold calls_and_sleeps in C.
           rewrite C. reflexivity.
        -- cbn [sleeps app flat_map]. unfold sleeps in Z. rewrite Z.
           reflexivity.
        -- intros H. f_equal. apply P, H.
      * exists 1. cbn. repeat split; [lia | discriminate].
Qed.


(** More fuel does not change a run that has left the loop. *)
Lemma poll_loop_more_fuel fuel :
  forall fuel' calls s,
    fst (poll_loop retrieve fuel calls s) <> Polling -> fuel <= fuel' ->
    poll_loop retrieve fuel' calls s = poll_loop retrieve fuel calls s.
Proof.
  induction fuel as [|fuel IH]; intros fuel' calls s;
    rewrite (poll_loop_unfold fuel' calls s), poll_loop_unfold;
    destruct (is_terminal s); try reflexivity.
  - cbn [fst]. congruence.
  - intros H L. destruct fuel' as [|fuel']; [lia|].
    destruct (retrieve calls) as [response|e]; [|reflexivity].
    cbn [fst] in H. rewrite (IH fuel' (S calls) (status response) H);
      [reflexivity | lia].
Qed.

(** X14. What the monitoring cell does, whatever the service answers:
    it retrieves the job once, then makes rounds of one sleep of 10
    seconds followed by one retrieval, and nothing else; the rounds are
    at most the iterations allowed, and exactly that many when it is
    still polling. *)
Theorem monitor_trace_rounds (fuel : nat) :
  exists k,
    k <= fuel
    /\ calls_and_sleeps (snd (monitor retrieve fuel))
       = Retrieve :: concat (repeat round k)
    /\ sleeps (snd (monitor retrieve fuel)) = repeat 10%Z k
    /\ (fst (monitor retrieve fuel) = Polling -> k = fuel).
Proof.
  rewrite monitor_unfold. destruct (retrieve 0) as [response|e].
  - destruct (poll_loop_rounds fuel 1 (status response)) as (k & Lk & C & Z & P).
    exists k. cbn [fst snd]. split; [exact Lk|].
    set (tail := match fst (poll_loop retrieve fuel 1 (status response)) with
                 | Finished s => [PrintFinished s]
                 | _ => []
                 end).
    assert (Ct : calls_and_sleeps tail = [] /\ sleeps tail = []).
    { unfold tail. destruct (fst _); split; reflexivity. }
    split; [|split; [|exact P]].
    + unfold calls_and_sleeps in *. cbn [filter]. rewrite filter_app, C.
      rewrite (proj1 Ct). rewrite app_nil_r. reflexivity.
    + unfold sleeps in *. cbn [flat_map]. rewrite flat_map_app, Z.
      rewrite (proj2 Ct). rewrite app_nil_r. reflexivity.
  - exists 0. cbn. repeat split; [lia | discriminate].
Qed.


(** X16. Once the monitoring cell has left the loop, with a final
    status or with an exception, allowing more iterations changes
    neither the result nor what is done and printed. *)
Theorem monitor_fuel_independent (fuel fuel' : nat) :
  fst (monitor retrieve fuel) <> Polling -> fuel <= fuel' ->
  monitor retrieve fuel' = monitor retrieve fuel.
Proof.
  rewrite !monitor_unfold. destruct (retrieve 0) as [response|e];
    [|reflexivity].
  cbn [fst]. intros H L.
  rewrite (poll_loop_more_fuel fuel fuel' 1 (status response) H L).
  reflexivity.
Qed.

End AnyService.

Lemma monitor_fuel_independent_witness :
  monitor succeeding_service 7 = monitor succeeding_service 2.
Proof.
  apply (monitor_fuel_independent succeeding_service 2 7).
  - discriminate.
  - lia.
Defined.

End MonitoringSpec.
